(** * slack-notifications-mcp: the build-status tool handlers, embedded in Rocq

    A shallow embedding of [index.js] (server version 1.1.0): the
    [CallToolRequestSchema] handler with its five tools, and inside
    [check_build_status] the status classifier, [extractDuration],
    [extractWorkflow], the message normalizer and the filter/limit pipeline.

    Conventions of the embedding.
    - A JavaScript string is a [string]: a sequence of code units below 256
      (the Latin-1 range).  [toLowerCase], the [i] flag of the regular
      expressions, [\s] and [trim] are written out for that range.
    - [undefined] and [null] are [None].
    - The [limit] argument is an integer, a [Z]; a request with a limit
      that has a fractional part is outside the embedding.
    - The numbers of a duration are doubles: [parseInt], [* 60], [+] and
      the conversion to a string round and print as binary64 does
      ([JsNumber] below).
    - An exception is a value of [SlackError]; code that can throw lives in
      the [Result] monad, and [try]/[catch] is a [match] on it.
    - The Slack client and the calendar arithmetic of [Date] are parameters. *)

From Stdlib Require Import String Ascii List Bool Arith NArith ZArith Lia.
From Stdlib Require Import DecimalString SpecFloat.
Import ListNotations.

Local Open Scope string_scope.
Local Open Scope bool_scope.

(** ** Characters and strings *)

Module JsString.

Definition code (c : ascii) : N := N_of_ascii c.

Definition inRange (lo hi : N) (c : ascii) : bool :=
  (lo <=? code c)%N && (code c <=? hi)%N.

(** [String.prototype.toLowerCase] on one code unit: A-Z, and the Latin-1
    capitals U+00C0..U+00DE without the multiplication sign U+00D7. *)
Definition toLowerChar (c : ascii) : ascii :=
  if inRange 65 90 c || (inRange 192 222 c && negb (code c =? 215)%N)
  then ascii_of_N (code c + 32)
  else c.

(** The upper-case partner inside the range; U+00B5 and U+00FF have theirs
    outside of it and U+00DF has none of one code unit, so they stay. *)
Definition toUpperChar (c : ascii) : ascii :=
  if inRange 97 122 c || (inRange 224 254 c && negb (code c =? 247)%N)
  then ascii_of_N (code c - 32)
  else c.

Fixpoint toLowerCase (s : string) : string :=
  match s with
  | EmptyString => EmptyString
  | String c s' => String (toLowerChar c) (toLowerCase s')
  end.

(** [s.includes(sub)] *)
Fixpoint includes (s sub : string) : bool :=
  prefix sub s ||
  match s with
  | EmptyString => false
  | String _ s' => includes s' sub
  end.

(** [\s] of a regular expression, and the characters [trim] removes:
    TAB, LF, VT, FF, CR, SPACE, NBSP. *)
Definition isSpace (c : ascii) : bool :=
  inRange 9 13 c || (code c =? 32)%N || (code c =? 160)%N.

(** [\d] *)
Definition isDigit (c : ascii) : bool := inRange 48 57 c.

Fixpoint trimStart (s : string) : string :=
  match s with
  | EmptyString => EmptyString
  | String c s' => if isSpace c then trimStart s' else s
  end.

Fixpoint trimEnd (s : string) : string :=
  match s with
  | EmptyString => EmptyString
  | String c s' =>
      match trimEnd s' with
      | EmptyString => if isSpace c then EmptyString else String c EmptyString
      | t => String c t
      end
  end.

Definition trim (s : string) : string := trimEnd (trimStart s).

(** [xs.join(sep)] *)
Fixpoint join (sep : string) (xs : list string) : string :=
  match xs with
  | [] => ""
  | [x] => x
  | x :: rest => x ++ sep ++ join sep rest
  end.

(** [x || ''] on a nullable string *)
Definition orEmpty (o : option string) : string :=
  match o with Some s => s | None => "" end.

(** Truthiness of a nullable string: [undefined], [null] and [''] are falsy. *)
Definition truthy (o : option string) : bool :=
  match o with
  | Some (String _ _) => true
  | _ => false
  end.

(** [a || b] on nullable strings *)
Definition orElse (a b : option string) : option string :=
  if truthy a then a else b.

End JsString.
Import JsString.

(** ** Status classification (lines 244-255) *)

Inductive BuildStatus : Set :=
| succeeded | failed | running | cancelled | unknown.

Definition statusName (st : BuildStatus) : string :=
  match st with
  | succeeded => "succeeded"
  | failed => "failed"
  | running => "running"
  | cancelled => "cancelled"
  | unknown => "unknown"
  end.

(** The [if]/[else if] chain over [text.toLowerCase()], with [status]
    initialised to ["unknown"]. *)
Definition classifyStatus (text : string) : BuildStatus :=
  if includes (toLowerCase text) "succeeded" || includes (toLowerCase text) "success"
  then succeeded
  else if includes (toLowerCase text) "failed" || includes (toLowerCase text) "failure"
  then failed
  else if includes (toLowerCase text) "started" || includes (toLowerCase text) "running"
  then running
  else if includes (toLowerCase text) "cancelled" || includes (toLowerCase text) "canceled"
  then cancelled
  else unknown.

(** The classifier as the specification words it: an ordered list of keyword
    groups, searched case-insensitively, the first matching group wins. *)
Definition keywordGroups : list (list string * BuildStatus) :=
  [ (["succeeded"; "success"], succeeded);
    (["failed"; "failure"], failed);
    (["started"; "running"], running);
    (["cancelled"; "canceled"], cancelled) ].

(** [text] contains [kw] when letter case is ignored ([kw] is lower case). *)
Definition containsCI (text kw : string) : bool :=
  includes (toLowerCase text) kw.

Fixpoint firstGroup (groups : list (list string * BuildStatus)) (text : string)
  : BuildStatus :=
  match groups with
  | [] => unknown
  | (kws, st) :: rest =>
      if existsb (containsCI text) kws then st else firstGroup rest text
  end.

Definition classifySpec (text : string) : BuildStatus :=
  firstGroup keywordGroups text.

(** ** Regular expressions

    The fragment of ECMAScript regular expressions that the handler's seven
    patterns use, all under the [i] flag: literals, character classes,
    concatenation, alternation, greedy [?] and [*], capture groups and the
    [^] assertion.  The matcher is the backtracking matcher of the language
    definition, in continuation-passing style: a continuation that answers
    [None] makes the matcher try its next choice. *)

Module Regex.

Inductive classItem : Set :=
| One (c : ascii)
| Range (lo hi : ascii)
| Space
| Digit.

Inductive regex : Set :=
| Eps
| Bol
| Chr (c : ascii)
| Class (negated : bool) (items : list classItem)
| Seq (r1 r2 : regex)
| Alt (r1 r2 : regex)
| Opt (r : regex)
| Star (r : regex)
| Group (n : nat) (r : regex).

Definition Plus (r : regex) : regex := Seq r (Star r).

Fixpoint lit (w : string) : regex :=
  match w with
  | EmptyString => Eps
  | String c w' => Seq (Chr c) (lit w')
  end.

Fixpoint cat (rs : list regex) : regex :=
  match rs with
  | [] => Eps
  | [r] => r
  | r :: rest => Seq r (cat rest)
  end.

(** [Canonicalize] under the [i] flag. *)
Definition canonicalize (c : ascii) : ascii := toUpperChar c.

(** An item of a class matches a character when one of its members has the
    same canonical form.  Inside the range, the characters sharing the
    canonical form of [a] are [a], [toUpperChar a] and [toLowerChar a]. *)
Definition itemMatches (it : classItem) (a : ascii) : bool :=
  match it with
  | One c => Ascii.eqb (canonicalize c) (canonicalize a)
  | Range lo hi =>
      inRange (code lo) (code hi) a
      || inRange (code lo) (code hi) (toUpperChar a)
      || inRange (code lo) (code hi) (toLowerChar a)
  | Space => isSpace a
  | Digit => isDigit a
  end.

Definition classMatches (negated : bool) (items : list classItem) (a : ascii) : bool :=
  xorb negated (existsb (fun it => itemMatches it a) items).

(** Captures, most recent first; group 0 is the whole match. *)
Definition Captures : Set := list (nat * string).

Fixpoint group (n : nat) (caps : Captures) : option string :=
  match caps with
  | [] => None
  | (m, v) :: rest => if Nat.eqb m n then Some v else group n rest
  end.

(** [matchR r i s caps k]: match [r] at index [i], where [s] is the input
    from [i] on.  An iteration of [?] or [*] that consumes nothing is
    rejected, as the language definition asks; [*] can therefore iterate at
    most [length s] times, which is the fuel of its loop
    ([matchR_Star_unfold] below shows that the fuel never runs out). *)
Fixpoint matchR {A : Type} (r : regex) (i : nat) (s : string) (caps : Captures)
  (k : nat -> string -> Captures -> option A) {struct r} : option A :=
  match r with
  | Eps => k i s caps
  | Bol => if Nat.eqb i 0 then k i s caps else None
  | Chr c =>
      match s with
      | String a s' =>
          if Ascii.eqb (canonicalize a) (canonicalize c) then k (S i) s' caps else None
      | EmptyString => None
      end
  | Class negated items =>
      match s with
      | String a s' =>
          if classMatches negated items a then k (S i) s' caps else None
      | EmptyString => None
      end
  | Seq r1 r2 =>
      matchR r1 i s caps (fun i' s' caps' => matchR r2 i' s' caps' k)
  | Alt r1 r2 =>
      match matchR r1 i s caps k with
      | Some x => Some x
      | None => matchR r2 i s caps k
      end
  | Opt r1 =>
      match matchR r1 i s caps
              (fun i' s' caps' => if Nat.eqb i' i then None else k i' s' caps') with
      | Some x => Some x
      | None => k i s caps
      end
  | Star r1 =>
      (fix loop (fuel : nat) (i : nat) (s : string) (caps : Captures) : option A :=
         match fuel with
         | O => k i s caps
         | S fuel' =>
             match matchR r1 i s caps
                     (fun i' s' caps' =>
                        if Nat.eqb i' i then None else loop fuel' i' s' caps') with
             | Some x => Some x
             | None => k i s caps
             end
         end) (String.length s) i s caps
  | Group n r1 =>
      matchR r1 i s caps
        (fun i' s' caps' => k i' s' ((n, substring 0 (i' - i) s) :: caps'))
  end.

(** The loop of [Star], under a name: [matchR (Star r) i s caps k] is
    [starLoop r k (String.length s) i s caps]. *)
Definition starLoop {A : Type} (r : regex) (k : nat -> string -> Captures -> option A)
  : nat -> nat -> string -> Captures -> option A :=
  fix loop (fuel : nat) (i : nat) (s : string) (caps : Captures) : option A :=
    match fuel with
    | O => k i s caps
    | S fuel' =>
        match matchR r i s caps
                (fun i' s' caps' =>
                   if Nat.eqb i' i then None else loop fuel' i' s' caps') with
        | Some x => Some x
        | None => k i s caps
        end
    end.

(** [RegExp.prototype.exec] without the [g] flag: the first index, from 0
    on, at which the pattern matches. *)
Fixpoint execFrom (r : regex) (i : nat) (s : string) : option Captures :=
  match matchR r i s [] (fun i' _ caps => Some ((0, substring 0 (i' - i) s) :: caps)) with
  | Some m => Some m
  | None =>
      match s with
      | EmptyString => None
      | String _ s' => execFrom r (S i) s'
      end
  end.

(** [s.match(r)] *)
Definition jsMatch (s : string) (r : regex) : option Captures := execFrom r 0 s.

(** The [for (const pattern of patterns)] loops: the match of the first
    pattern of the list that matches. *)
Fixpoint firstMatch (patterns : list regex) (s : string) : option Captures :=
  match patterns with
  | [] => None
  | p :: rest =>
      match jsMatch s p with
      | Some m => Some m
      | None => firstMatch rest s
      end
  end.

(** [defines n r]: group [n] takes part in every match of [r]. *)
Fixpoint defines (n : nat) (r : regex) : bool :=
  match r with
  | Seq r1 r2 => defines n r1 || defines n r2
  | Alt r1 r2 => defines n r1 && defines n r2
  | Group m r1 => Nat.eqb m n || defines n r1
  | _ => false
  end.

(** The states that a match started at [(i, s)] can hand to its
    continuation: further right, by as much as the rest got shorter. *)
Definition reachable (i : nat) (s : string) (i' : nat) (s' : string) : Prop :=
  i <= i' /\ i' + String.length s' = i + String.length s.

(** Group [n] took part in the match. *)
Definition has (n : nat) (caps : Captures) : Prop := group n caps <> None.

End Regex.
Import Regex.

(** ** Exceptions *)

(** A thrown value: [error.message] and [error.data?.error]. *)
Record SlackError : Set := mkError {
  message : string;
  dataError : option string
}.

Inductive Result (A : Type) : Type :=
| Ok (a : A)
| Throw (e : SlackError).
Arguments Ok {A} a.
Arguments Throw {A} e.

Definition bind {A B : Type} (m : Result A) (f : A -> Result B) : Result B :=
  match m with
  | Ok a => f a
  | Throw e => Throw e
  end.

Notation "x <- m ;; f" := (bind m (fun x => f))
  (at level 61, m at next level, right associativity).

(** [xs.map(f)] with a callback that can throw: elements are visited from
    the left and the first exception ends the loop. *)
Fixpoint mapM {A B : Type} (f : A -> Result B) (xs : list A) : Result (list B) :=
  match xs with
  | [] => Ok []
  | x :: rest =>
      y <- f x ;;
      ys <- mapM f rest ;;
      Ok (y :: ys)
  end.

(** What reading a property of [undefined] throws. *)
Definition typeError (what : string) : SlackError :=
  mkError ("Cannot read properties of undefined (reading '" ++ what ++ "')") None.

(** What [toISOString] throws on an invalid date. *)
Definition rangeError : SlackError := mkError "Invalid time value" None.

(** ** Data model *)

Record Attachment : Set := mkAttachment {
  title : option string;
  atext : option string;
  color : option string
}.

Record RawMessage : Set := mkRaw {
  ts : string;
  text : option string;
  attachments : option (list Attachment);
  user : option string;
  bot_id : option string
}.

(** The numbers of a duration.  [parseInt] of a run of digits, [* 60] and
    [+] give doubles that are non-negative integers, or [Infinity]: a
    [JsNumber] is the integer such a double holds, or [Infinity]. *)
Inductive JsNumber : Set :=
| Finite (n : N)
| Infinity.

Coercion Finite : N >-> JsNumber.
Bind Scope N_scope with JsNumber.

Record Duration : Set := mkDuration {
  minutes : JsNumber;
  seconds : JsNumber;
  totalSeconds : JsNumber;
  formatted : string
}.

Record ParsedBuild : Set := mkBuild {
  b_timestamp : string;
  b_status : BuildStatus;
  b_workflow : option string;
  b_duration : option Duration;
  b_text : string;
  b_attachments : option (list Attachment)
}.

(** ** Duration extraction (lines 181-208) *)

Definition ws : regex := Class false [Space].
Definition digits : regex := Plus (Class false [Digit]).

(** [(?:min(?:ute)?s?)] and [(?:sec(?:ond)?s?)] *)
Definition minUnit : regex := cat [lit "min"; Opt (lit "ute"); Opt (Chr "s")].
Definition secUnit : regex := cat [lit "sec"; Opt (lit "ond"); Opt (Chr "s")].

(** [(?:\s*(\d+)\s*(?:sec(?:ond)?s?)?)?], the tail of the first three patterns *)
Definition secondsTail : regex :=
  Opt (cat [Star ws; Group 2 digits; Star ws; Opt secUnit]).

(** [/duration[:\s]+(\d+)\s*(?:min(?:ute)?s?)?(?:\s*(\d+)\s*(?:sec(?:ond)?s?)?)?/i] *)
Definition durationPattern1 : regex :=
  cat [lit "duration"; Plus (Class false [One ":"; Space]);
       Group 1 digits; Star ws; Opt minUnit; secondsTail].

(** [/took\s+(\d+)\s*(?:min(?:ute)?s?)?(?:\s*(\d+)\s*(?:sec(?:ond)?s?)?)?/i] *)
Definition durationPattern2 : regex :=
  cat [lit "took"; Plus ws; Group 1 digits; Star ws; Opt minUnit; secondsTail].

(** [/completed\s+in\s+(\d+)\s*(?:min(?:ute)?s?)?(?:\s*(\d+)\s*(?:sec(?:ond)?s?)?)?/i] *)
Definition durationPattern3 : regex :=
  cat [lit "completed"; Plus ws; lit "in"; Plus ws;
       Group 1 digits; Star ws; Opt minUnit; secondsTail].

(** [/(\d+)\s*(?:min(?:ute)?s?)\s*(?:(\d+)\s*(?:sec(?:ond)?s?)?)?/i] *)
Definition durationPattern4 : regex :=
  cat [Group 1 digits; Star ws; minUnit; Star ws;
       Opt (cat [Group 2 digits; Star ws; Opt secUnit])].

(** [/(\d+):(\d+)\s*(?:min)?/i] *)
Definition durationPattern5 : regex :=
  cat [Group 1 digits; Chr ":"; Group 2 digits; Star ws; Opt (lit "min")].

Definition durationPatterns : list regex :=
  [durationPattern1; durationPattern2; durationPattern3;
   durationPattern4; durationPattern5].

(** [`${a.title || ''} ${a.text || ''}`] *)
Definition attachmentLine (a : Attachment) : string :=
  orEmpty (title a) ++ " " ++ orEmpty (atext a).

(** [text + ' ' + (attachments?.map(...).join(' ') || '')] *)
Definition allText (text : string) (atts : option (list Attachment)) : string :=
  text ++ " " ++ orEmpty (option_map (fun l => join " " (map attachmentLine l)) atts).

(** The value of a run of decimal digits, most significant first. *)
Fixpoint digitsValue (acc : N) (s : string) : N :=
  match s with
  | String c s' =>
      if isDigit c then digitsValue (acc * 10 + (code c - 48)) s' else acc
  | EmptyString => acc
  end.

(** The double nearest to the integer [n], ties to the even mantissa, and
    [Infinity] beyond the largest double: the rounding of the Standard
    Library's IEEE 754 specification at binary64 (53 bits, exponents below
    1024).  The mantissa and exponent of the result are put back together;
    the result of rounding an integer is an integer. *)
Definition toDouble (n : N) : JsNumber :=
  match binary_normalize 53 1024 (Z.of_N n) 0 false with
  | S754_zero _ => Finite 0
  | S754_finite _ m e => Finite (Z.to_N (Z.shiftl (Z.pos m) e))
  | _ => Infinity
  end.

(** [parseInt(x)] where [x] is a capture: [NaN] ([None]) for [undefined] and
    for a string that does not start with a digit, else the double nearest
    to the value of the leading digits.  Captures of the patterns above
    carry neither leading white space, nor a sign, nor a [0x] prefix.
    (Beyond 20 significant digits the language lets an implementation read
    the further digits as zeros; Node reads them all, as here.) *)
Definition parseInt (x : option string) : option JsNumber :=
  match x with
  | Some (String c s') =>
      if isDigit c then Some (toDouble (digitsValue 0 (String c s'))) else None
  | _ => None
  end.

(** [n || 0]: [NaN] and [0] are falsy. *)
Definition orZero (n : option JsNumber) : JsNumber :=
  match n with Some v => v | None => Finite 0 end.

(** [a * 60] and [a + b]: the exact result, rounded. *)
Definition times60 (a : JsNumber) : JsNumber :=
  match a with
  | Finite n => toDouble (n * 60)
  | Infinity => Infinity
  end.

Definition jsAdd (a b : JsNumber) : JsNumber :=
  match a, b with
  | Finite x, Finite y => toDouble (x + y)
  | _, _ => Infinity
  end.

(** [a > 0] *)
Definition isPositive (a : JsNumber) : bool :=
  match a with
  | Finite n => (0 <? n)%N
  | Infinity => true
  end.

(** The decimal digits of an integer. *)
Definition decimal (n : N) : string :=
  NilEmpty.string_of_uint (N.to_uint n).

(** [c] reads back as the double [v]. *)
Definition readsAs (c v : N) : bool :=
  match toDouble c with
  | Finite x => (x =? v)%N
  | Infinity => false
  end.

(** The number that [Number::toString] prints for the double [v]: of the
    decimal numbers with the fewest significant digits that read back as
    [v], the one nearest to [v] (the one with the even last digit when two
    are as near).  With [k] significant digits the candidates are the two
    multiples of [10^(digits - k)] around [v]; [k] goes up from 1. *)
Fixpoint shortestFrom (v : N) (digits k fuel : nat) : N :=
  match fuel with
  | O => v
  | S fuel' =>
      let scale := (10 ^ N.of_nat (digits - k))%N in
      let lo := (v / scale * scale)%N in
      let hi := (lo + scale)%N in
      if readsAs lo v && readsAs hi v
      then if (v - lo <? hi - v)%N then lo
           else if (hi - v <? v - lo)%N then hi
           else if N.even (v / scale) then lo else hi
      else if readsAs lo v then lo
      else if readsAs hi v then hi
      else shortestFrom v digits (S k) fuel'
  end.

Definition shortest (v : N) : N :=
  shortestFrom v (String.length (decimal v)) 1 (String.length (decimal v)).

Fixpoint stripZeros (s : string) : string :=
  match s with
  | EmptyString => EmptyString
  | String c s' =>
      match stripZeros s' with
      | EmptyString => if Ascii.eqb c "0" then EmptyString else String c EmptyString
      | t => String c t
      end
  end.

(** [`${n}`]: below 10^21 the digits of the printed number, from there on
    its significant digits with a point after the first and the exponent. *)
Definition numberToString (a : JsNumber) : string :=
  match a with
  | Infinity => "Infinity"
  | Finite v =>
      let c := shortest v in
      if (c <? 10 ^ 21)%N then decimal c
      else
        let exponent := decimal (N.of_nat (String.length (decimal c) - 1)) in
        match stripZeros (decimal c) with
        | String d EmptyString => String d ("e+" ++ exponent)
        | String d rest => String d ("." ++ rest ++ "e+" ++ exponent)
        | EmptyString => "0"
        end
  end.

Definition durationOfMatch (m : Captures) : Duration :=
  let mins := orZero (parseInt (group 1 m)) in
  let secs := orZero (parseInt (group 2 m)) in
  let totalSeconds := jsAdd (times60 mins) secs in
  mkDuration mins secs totalSeconds
    (if isPositive mins
     then numberToString mins ++ "m " ++ numberToString secs ++ "s"
     else numberToString secs ++ "s").

Definition extractDuration (text : string) (atts : option (list Attachment))
  : option Duration :=
  option_map durationOfMatch (firstMatch durationPatterns (allText text atts)).

(** ** Workflow extraction (lines 211-237) *)

(** [/workflow[:\s]+([^\n\r,]+)/i] *)
Definition workflowPattern1 : regex :=
  cat [lit "workflow"; Plus (Class false [One ":"; Space]);
       Group 1 (Plus (Class true [One "010"; One "013"; One ","]))].

Definition nameHead : regex := Class false [Range "A" "Z"].
Definition nameTail : regex :=
  Plus (Class false [Range "a" "z"; Range "A" "Z"; Range "0" "9"; One "-"]).

(** The second pattern, under the [i] flag: [^], then group 1, which is
    [[A-Z][a-zA-Z0-9-]+] followed by any number of [\s+[A-Z][a-zA-Z0-9-]+],
    then [\s+(?:build|workflow)]. *)
Definition workflowPattern2 : regex :=
  cat [Bol;
       Group 1 (cat [nameHead; nameTail; Star (cat [Plus ws; nameHead; nameTail])]);
       Plus ws; Alt (lit "build") (lit "workflow")].

Definition workflowPatterns : list regex := [workflowPattern1; workflowPattern2].

(** [attachments[0].title] when it is a string of 1 to 49 code units. *)
Definition titleFallback (atts : option (list Attachment)) : option string :=
  match atts with
  | Some (a :: _) =>
      match title a with
      | Some t =>
          if (0 <? String.length t)%nat && (String.length t <? 50)%nat then Some t else None
      | None => None
      end
  | _ => None
  end.

(** [match[1].trim()] throws when the first group did not take part in the
    match. *)
Definition extractWorkflow (text : string) (atts : option (list Attachment))
  : Result (option string) :=
  match firstMatch workflowPatterns (allText text atts) with
  | Some m =>
      match group 1 m with
      | Some g => Ok (Some (trim g))
      | None => Throw (typeError "trim")
      end
  | None => Ok (titleFallback atts)
  end.

(** ** Requests, the Slack client and envelopes *)

Record Args : Set := mkArgs {
  arg_limit : option Z;
  arg_workflow : option string;
  arg_channel_id : option string;
  arg_query : option string;
  arg_text : option string
}.

(** [request.params] *)
Record Request : Set := mkRequest {
  name : string;
  arguments : option Args
}.

(** [args?.field] *)
Definition argOf {A : Set} (field : Args -> option A) (args : option Args) : option A :=
  match args with
  | Some a => field a
  | None => None
  end.

Record HistoryResult : Set := mkHistory {
  messages : option (list RawMessage)
}.

(** A search match, with [match.channel?.name] read off. *)
Record SearchMatch : Set := mkMatch {
  sm_ts : string;
  sm_channel : option string;
  sm_text : option string;
  sm_user : option string
}.

Record SearchMessages : Set := mkSearchMessages {
  matches : option (list SearchMatch);
  total : option Z
}.

Record SearchResult : Set := mkSearch {
  sr_messages : option SearchMessages
}.

Record PostResult : Set := mkPost {
  ok : bool;
  post_ts : option string;
  post_channel : option string
}.

(** A channel, with [ch.topic?.value] read off. *)
Record Channel : Set := mkChannel {
  ch_id : option string;
  ch_name : option string;
  ch_is_private : option bool;
  ch_is_member : option bool;
  ch_topic : option string
}.

Record ChannelsResult : Set := mkChannels {
  channels : option (list Channel)
}.

(** The four calls the handler awaits; a rejected promise is a [Throw].
    [slack.conversations.history] takes the channel and the limit,
    [slack.search.messages] the query and the count (sorted by timestamp,
    descending), [slack.chat.postMessage] the channel and the text,
    [slack.conversations.list] the limit (public and private channels). *)
Record SlackClient : Type := mkSlack {
  slack_conversations_history : string -> Z -> Result HistoryResult;
  slack_search_messages : string -> Z -> Result SearchResult;
  slack_chat_postMessage : string -> string -> Result PostResult;
  slack_conversations_list : Z -> Result ChannelsResult
}.

(** What is read once at start-up. *)
Record Env : Type := mkEnv {
  buildChannelId : option string;
  slack : SlackClient
}.

Record ChannelMessage : Set := mkChannelMessage {
  m_timestamp : string;
  m_user : option string;
  m_text : option string;
  m_bot_id : option string
}.

Record SearchHit : Set := mkHit {
  h_timestamp : string;
  h_channel : option string;
  h_text : option string;
  h_user : option string
}.

(** The object handed to [JSON.stringify(_, null, 2)], one shape per tool. *)
Inductive Payload : Set :=
| BuildsPayload (builds : list ParsedBuild) (filter : option string) (count : nat)
| MessagesPayload (msgs : list ChannelMessage)
| SearchPayload (results : list SearchHit) (total : Z)
| SentPayload (success : bool) (timestamp channel : option string)
| ChannelsPayload (chans : list Channel).

(** The [text] of the single content item: a literal, or a serialized
    payload (the serialization itself is left symbolic). *)
Inductive ContentText : Set :=
| Plain (s : string)
| Json (p : Payload).

(** [{ content: [{ type: "text", text }], isError }]; [isError] is [None]
    where the object literal has no such property. *)
Record Envelope : Set := mkEnvelope {
  content : ContentText;
  isError : option bool
}.

(** ** Numbers *)

(** [limit || d]: [undefined] and [0] are falsy. *)
Definition limitOr (limit : option Z) (d : Z) : Z :=
  match limit with
  | Some l => if (l =? 0)%Z then d else l
  | None => d
  end.

(** [xs.slice(0, e)]: a negative [e] counts from the end. *)
Definition sliceTo {A : Type} (e : Z) (xs : list A) : list A :=
  let len := Z.of_nat (List.length xs) in
  let stop := if (e <? 0)%Z then Z.max (len + e) 0 else Z.min e len in
  firstn (Z.to_nat stop) xs.

(** ** check_build_status *)

(** Line 161: [args?.workflow?.toLowerCase()] *)
Definition workflowFilterOf (args : option Args) : option string :=
  option_map toLowerCase (argOf arg_workflow args).

(** Line 163 *)
Definition fetchLimit (args : option Args) : Z :=
  if truthy (workflowFilterOf args)
  then Z.min (limitOr (argOf arg_limit args) 5 * 4) 100
  else Z.min (limitOr (argOf arg_limit args) 5) 20.

(** Line 285 *)
Definition resultLimit (args : option Args) : Z :=
  Z.min (limitOr (argOf arg_limit args) 5) 20.

(** Lines 266-270 *)
Definition summarize (a : Attachment) : Attachment :=
  mkAttachment (title a) (option_map (substring 0 200) (atext a)) (color a).

(** Lines 276-281: the predicate of [buildMessages.filter]. *)
Definition matchesFilter (workflowFilter : string) (msg : ParsedBuild) : bool :=
  let workflow := orEmpty (option_map toLowerCase (b_workflow msg)) in
  let text := toLowerCase (b_text msg) in
  let attachmentText :=
    orEmpty (option_map (fun l => toLowerCase (join " " (map attachmentLine l)))
               (b_attachments msg)) in
  includes workflow workflowFilter
  || includes text workflowFilter
  || includes attachmentText workflowFilter.

(** Lines 275-286: filter when a filter is given, then cut to the limit. *)
Definition filterAndLimit (args : option Args) (buildMessages : list ParsedBuild)
  : list ParsedBuild :=
  let filtered :=
    if truthy (workflowFilterOf args)
    then List.filter (matchesFilter (orEmpty (workflowFilterOf args))) buildMessages
    else buildMessages in
  sliceTo (resultLimit args) filtered.

Section Handler.

(** [new Date(parseFloat(ts) * 1000).toISOString()]: the rendered instant,
    or [None] where the date is invalid and [toISOString] throws. *)
Variable isoOfTs : string -> option string.

Definition toISOString (t : string) : Result string :=
  match isoOfTs t with
  | Some s => Ok s
  | None => Throw rangeError
  end.

(** Lines 240-272: the callback of [result.messages.map]. *)
Definition parseMessage (msg : RawMessage) : Result ParsedBuild :=
  timestamp <- toISOString (ts msg) ;;
  let text := orEmpty (text msg) in
  let status := classifyStatus text in
  workflow <- extractWorkflow text (attachments msg) ;;
  let duration := extractDuration text (attachments msg) in
  Ok (mkBuild timestamp status workflow duration
        (substring 0 500 text)
        (option_map (map summarize) (attachments msg))).

Definition plain (s : string) : Envelope := mkEnvelope (Plain s) None.
Definition json (p : Payload) : Envelope := mkEnvelope (Json p) None.

Definition check_build_status (env : Env) (args : option Args) : Result Envelope :=
  match buildChannelId env with
  | Some (String c0 cs) =>
      let channel := String c0 cs in
      let workflowFilter := workflowFilterOf args in
      result <- slack_conversations_history (slack env) channel (fetchLimit args) ;;
      match messages result with
      | None | Some [] => Ok (plain "No build messages found in the channel.")
      | Some msgs =>
          buildMessages <- mapM parseMessage msgs ;;
          let buildMessages := filterAndLimit args buildMessages in
          Ok (json (BuildsPayload buildMessages
                      (if truthy workflowFilter then argOf arg_workflow args else None)
                      (List.length buildMessages)))
      end
  | _ =>
      Ok (plain "Error: SLACK_BUILD_CHANNEL_ID not configured. Please set it in your MCP config.")
  end.

(** ** get_channel_messages *)

Definition channelMessage (msg : RawMessage) : Result ChannelMessage :=
  timestamp <- toISOString (ts msg) ;;
  Ok (mkChannelMessage timestamp (user msg)
        (option_map (substring 0 500) (text msg)) (bot_id msg)).

Definition noChannelText : string :=
  "Error: No channel_id provided and SLACK_BUILD_CHANNEL_ID not configured.".

Definition get_channel_messages (env : Env) (args : option Args) : Result Envelope :=
  match orElse (argOf arg_channel_id args) (buildChannelId env) with
  | Some (String c0 cs) =>
      let limit := Z.min (limitOr (argOf arg_limit args) 10) 100 in
      result <- slack_conversations_history (slack env) (String c0 cs) limit ;;
      msgs <- mapM channelMessage (match messages result with Some l => l | None => [] end) ;;
      Ok (json (MessagesPayload msgs))
  | _ => Ok (plain noChannelText)
  end.

(** ** search_messages *)

Definition searchHit (m : SearchMatch) : Result SearchHit :=
  timestamp <- toISOString (sm_ts m) ;;
  Ok (mkHit timestamp (sm_channel m) (option_map (substring 0 500) (sm_text m)) (sm_user m)).

(** The body of the inner [try]. *)
Definition searchBody (env : Env) (query : string) (limit : Z) : Result Envelope :=
  result <- slack_search_messages (slack env) query limit ;;
  hits <- mapM searchHit
            (match sr_messages result with
             | Some sm => match matches sm with Some l => l | None => [] end
             | None => []
             end) ;;
  Ok (json (SearchPayload hits
              (match sr_messages result with
               | Some sm => limitOr (total sm) 0
               | None => 0%Z
               end))).

Definition missingScopeText : string :=
  "Error: Bot token missing 'search:read' scope. Add it in your Slack App settings.".

Definition search_messages (env : Env) (args : option Args) : Result Envelope :=
  match argOf arg_query args with
  | Some (String c0 cs) =>
      let limit := Z.min (limitOr (argOf arg_limit args) 10) 100 in
      match searchBody env (String c0 cs) limit with
      | Ok e => Ok e
      | Throw error =>
          match dataError error with
          | Some code =>
              if String.eqb code "missing_scope"
              then Ok (plain missingScopeText)
              else Throw error
          | None => Throw error
          end
      end
  | _ => Ok (plain "Error: query parameter is required")
  end.

(** ** send_message *)

Definition send_message (env : Env) (args : option Args) : Result Envelope :=
  match orElse (argOf arg_channel_id args) (buildChannelId env) with
  | Some (String c0 cs) =>
      match argOf arg_text args with
      | Some (String t0 t') =>
          result <- slack_chat_postMessage (slack env) (String c0 cs) (String t0 t') ;;
          Ok (json (SentPayload (ok result) (post_ts result) (post_channel result)))
      | _ => Ok (plain "Error: text parameter is required")
      end
  | _ => Ok (plain noChannelText)
  end.

(** ** list_channels *)

Definition channelSummary (ch : Channel) : Channel :=
  mkChannel (ch_id ch) (ch_name ch) (ch_is_private ch) (ch_is_member ch)
    (option_map (substring 0 100) (ch_topic ch)).

Definition list_channels (env : Env) (args : option Args) : Result Envelope :=
  let limit := Z.min (limitOr (argOf arg_limit args) 50) 200 in
  result <- slack_conversations_list (slack env) limit ;;
  Ok (json (ChannelsPayload
              (map channelSummary (match channels result with Some l => l | None => [] end)))).

(** ** The dispatcher (lines 144-485) *)

(** The [switch] inside the [try]. *)
Definition dispatch (env : Env) (req : Request) : Result Envelope :=
  let args := arguments req in
  if String.eqb (name req) "check_build_status" then check_build_status env args
  else if String.eqb (name req) "get_channel_messages" then get_channel_messages env args
  else if String.eqb (name req) "search_messages" then search_messages env args
  else if String.eqb (name req) "send_message" then send_message env args
  else if String.eqb (name req) "list_channels" then list_channels env args
  else Ok (mkEnvelope (Plain ("Unknown tool: " ++ name req)) (Some true)).

(** The handler: the [switch] under its [catch]. *)
Definition callTool (env : Env) (req : Request) : Envelope :=
  match dispatch env req with
  | Ok e => e
  | Throw error =>
      mkEnvelope (Plain ("Slack API error: " ++ message error)) (Some true)
  end.

End Handler.

(** The labels of the [switch]. *)
Definition knownTool (nm : string) : Prop :=
  In nm ["check_build_status"; "get_channel_messages"; "search_messages";
         "send_message"; "list_channels"].

(** The envelope of the [catch] block. *)
Definition caught (error : SlackError) : Envelope :=
  mkEnvelope (Plain ("Slack API error: " ++ message error)) (Some true).

(** A client that gives the same answers whatever it is asked, and one
    whose every call is rejected with [e]; for the examples. *)
Definition constSlack (h : Result HistoryResult) (s : Result SearchResult)
  (p : Result PostResult) (l : Result ChannelsResult) : SlackClient :=
  mkSlack (fun _ _ => h) (fun _ _ => s) (fun _ _ => p) (fun _ => l).

Definition failingSlack (e : SlackError) : SlackClient :=
  constSlack (Throw e) (Throw e) (Throw e) (Throw e).

(** [n] times the character [c], for the examples. *)
Fixpoint replicate (n : nat) (c : ascii) : string :=
  match n with
  | O => EmptyString
  | S n' => String c (replicate n' c)
  end.

(** Two points of the conversion, for the examples: the sample timestamp,
    and the empty string, for which [parseFloat] gives [NaN], the date is
    invalid and [toISOString] throws.  No example uses another timestamp. *)
Definition sampleClock (t : string) : option string :=
  if String.eqb t "1700000000.123456" then Some "2023-11-14T22:13:20.123Z" else None.

(** ** The words of a pattern

    [lang r i w]: the pattern [r], started at index [i], can consume the
    word [w].  The matcher is sound for it ([matchR_sound] below). *)

Inductive lang : regex -> nat -> string -> Prop :=
| L_Eps i : lang Eps i ""
| L_Bol : lang Bol 0 ""
| L_Chr c a i :
    Ascii.eqb (canonicalize a) (canonicalize c) = true ->
    lang (Chr c) i (String a "")
| L_Class negated items a i :
    classMatches negated items a = true ->
    lang (Class negated items) i (String a "")
| L_Seq r1 r2 i w1 w2 :
    lang r1 i w1 -> lang r2 (i + String.length w1) w2 ->
    lang (Seq r1 r2) i (w1 ++ w2)
| L_AltL r1 r2 i w : lang r1 i w -> lang (Alt r1 r2) i w
| L_AltR r1 r2 i w : lang r2 i w -> lang (Alt r1 r2) i w
| L_OptNone r i : lang (Opt r) i ""
| L_OptSome r i w : lang r i w -> lang (Opt r) i w
| L_StarNil r i : lang (Star r) i ""
| L_StarCons r i w1 w2 :
    lang r i w1 -> lang (Star r) (i + String.length w1) w2 ->
    lang (Star r) i (w1 ++ w2)
| L_Group n r i w : lang r i w -> lang (Group n r) i w.

(** Every capture satisfies [P]. *)
Definition capsOK (P : nat -> string -> Prop) (caps : Captures) : Prop :=
  forall n v, In (n, v) caps -> P n v.

(** Every word of every group of [r] satisfies [P]. *)
Fixpoint groupsOK (P : nat -> string -> Prop) (r : regex) : Prop :=
  match r with
  | Group n r1 => (forall i w, lang r1 i w -> P n w) /\ groupsOK P r1
  | Seq r1 r2 | Alt r1 r2 => groupsOK P r1 /\ groupsOK P r2
  | Opt r1 | Star r1 => groupsOK P r1
  | _ => True
  end.

(** Every word of [r] holds a digit: [r] runs through a [\d]. *)
Fixpoint needsDigit (r : regex) : bool :=
  match r with
  | Class false [Digit] => true
  | Seq r1 r2 => needsDigit r1 || needsDigit r2
  | Alt r1 r2 => needsDigit r1 && needsDigit r2
  | Group _ r1 => needsDigit r1
  | _ => false
  end.

Fixpoint allChars (p : ascii -> bool) (s : string) : bool :=
  match s with
  | EmptyString => true
  | String c s' => p c && allChars p s'
  end.

Fixpoint anyChar (p : ascii -> bool) (s : string) : bool :=
  match s with
  | EmptyString => false
  | String c s' => p c || anyChar p s'
  end.

Definition startsWithSpace (s : string) : bool :=
  match s with
  | String c _ => isSpace c
  | EmptyString => false
  end.

Fixpoint endsWithSpace (s : string) : bool :=
  match s with
  | EmptyString => false
  | String c EmptyString => isSpace c
  | String _ s' => endsWithSpace s'
  end.

(** Line feed, carriage return and comma: where the first workflow pattern
    stops capturing. *)
Definition isSeparator (c : ascii) : bool :=
  (code c =? 10)%N || (code c =? 13)%N || (code c =? 44)%N.

(** The place of a status in the [if]/[else if] chain. *)
Definition precedence (st : BuildStatus) : nat :=
  match st with
  | succeeded => 0
  | failed => 1
  | running => 2
  | cancelled => 3
  | unknown => 4
  end.

(** No constraint on the captures. *)
Definition anyWord : nat -> string -> Prop := fun _ _ => True.

(** What the first workflow pattern puts in group 1. *)
Definition workflowCaps : nat -> string -> Prop :=
  fun n w => n = 1 -> anyChar isSeparator w = false.

(** The case of the letters A to Z alone.  For these the [i] flag and
    [toLowerCase] agree on every string; further up they part ways (U+212A
    lower-cases to [k] and is not matched by [k] without the [u] flag). *)
Definition asciiLowerChar (c : ascii) : ascii :=
  if inRange 65 90 c then ascii_of_N (code c + 32) else c.

Fixpoint asciiLowerCase (s : string) : string :=
  match s with
  | EmptyString => EmptyString
  | String c s' => String (asciiLowerChar c) (asciiLowerCase s')
  end.

(** Captures and continuations of a match on the lower-cased input. *)
Definition lowerCaps (caps : Captures) : Captures :=
  map (fun nv => (fst nv, toLowerCase (snd nv))) caps.

Definition lowerK {A : Type} (k : nat -> string -> Captures -> option A)
  : nat -> string -> Captures -> option A :=
  fun i s caps => k i (toLowerCase s) (lowerCaps caps).

(** ** The tool catalogue (lines 46-141) *)

Record PropertySpec : Set := mkProperty {
  p_name : string;
  p_type : string;
  p_description : string;
  p_default : option Z
}.

Record ToolSpec : Set := mkTool {
  t_name : string;
  t_description : string;
  t_properties : list PropertySpec;
  t_required : list string
}.

(** What the [ListToolsRequestSchema] handler returns. *)
Definition listTools : list ToolSpec :=
  [ mkTool "check_build_status"
      "Get the latest Xcode Cloud build status from Slack notifications. Returns recent build messages including status, workflow name, duration, and timestamp."
      [ mkProperty "limit" "number"
          "Number of recent build messages to retrieve (default: 5, max: 20)" (Some 5%Z);
        mkProperty "workflow" "string"
          "Filter by workflow name (e.g., 'Cuti-E-Admin', 'Nutri-E'). Case-insensitive partial match."
          None ]
      [];
    mkTool "get_channel_messages"
      "Read recent messages from a specific Slack channel"
      [ mkProperty "channel_id" "string"
          "Slack channel ID (e.g., C01234567). If not provided, uses the build channel." None;
        mkProperty "limit" "number"
          "Number of messages to retrieve (default: 10, max: 100)" (Some 10%Z) ]
      [];
    mkTool "search_messages"
      "Search for messages in Slack containing specific text"
      [ mkProperty "query" "string"
          "Search query (e.g., 'build failed', 'Cuti-E-Admin')" None;
        mkProperty "limit" "number"
          "Maximum number of results (default: 10)" (Some 10%Z) ]
      ["query"];
    mkTool "send_message"
      "Send a message to a Slack channel"
      [ mkProperty "channel_id" "string"
          "Slack channel ID. If not provided, uses the build channel." None;
        mkProperty "text" "string" "Message text to send" None ]
      ["text"];
    mkTool "list_channels"
      "List available Slack channels the bot has access to"
      [ mkProperty "limit" "number"
          "Maximum number of channels to list (default: 50)" (Some 50%Z) ]
      [] ].

(** The declared default of a tool's [limit]. *)
Definition declaredLimit (t : ToolSpec) : option Z :=
  match List.find (fun p => String.eqb (p_name p) "limit") (t_properties t) with
  | Some p => p_default p
  | None => None
  end.

(** The value of a required string argument in a request. *)
Definition stringArg (param : string) (args : option Args) : option string :=
  if String.eqb param "query" then argOf arg_query args
  else if String.eqb param "text" then argOf arg_text args
  else if String.eqb param "workflow" then argOf arg_workflow args
  else if String.eqb param "channel_id" then argOf arg_channel_id args
  else None.

(** ** Version 1.0.0 of check_build_status ([index.js], lines 145-213)

    The earlier handler: no workflow filter, no workflow or duration field,
    no [slice].  Its other four cases are those of the handler above. *)

Module V1.

Record Build : Set := mkBuild {
  v_timestamp : string;
  v_status : BuildStatus;
  v_text : string;
  v_attachments : option (list Attachment)
}.

Inductive Content : Set :=
| Plain (s : string)
| Builds (builds : list Build).

Record Envelope : Set := mkEnvelope {
  content : Content;
  isError : option bool
}.

Section Handler.

Variable isoOfTs : string -> option string.

Definition parseMessage (msg : RawMessage) : Result Build :=
  timestamp <- toISOString isoOfTs (ts msg) ;;
  let text := orEmpty (text msg) in
  Ok (mkBuild timestamp (classifyStatus text) (substring 0 500 text)
        (option_map (map summarize) (attachments msg))).

Definition check_build_status (env : Env) (args : option Args) : Result Envelope :=
  match buildChannelId env with
  | Some (String c0 cs) =>
      let limit := Z.min (limitOr (argOf arg_limit args) 5) 20 in
      result <- slack_conversations_history (slack env) (String c0 cs) limit ;;
      match messages result with
      | None | Some [] =>
          Ok (mkEnvelope (Plain "No build messages found in the channel.") None)
      | Some msgs =>
          buildMessages <- mapM parseMessage msgs ;;
          Ok (mkEnvelope (Builds buildMessages) None)
      end
  | _ =>
      Ok (mkEnvelope
            (Plain "Error: SLACK_BUILD_CHANNEL_ID not configured. Please set it in your MCP config.")
            None)
  end.

End Handler.

End V1.

(** What version 1.0.0 shows of a ParsedBuild. *)
Definition forgetExtraction (b : ParsedBuild) : V1.Build :=
  V1.mkBuild (b_timestamp b) (b_status b) (b_text b) (b_attachments b).

(** [result.messages || []] and [result.messages?.matches || []] *)
Definition messagesOf (r : HistoryResult) : list RawMessage :=
  match messages r with Some l => l | None => [] end.

Definition matchesOf (r : SearchResult) : list SearchMatch :=
  match sr_messages r with
  | Some sm => match matches sm with Some l => l | None => [] end
  | None => []
  end.

(** [output] is [input?.substring(0, n)]: absent with it, else a prefix of
    at most [n] code units. *)
Definition truncatedTo (n : nat) (input output : option string) : Prop :=
  match input with
  | None => output = None
  | Some t => exists t' rest, output = Some t' /\ t = t' ++ rest /\ String.length t' <= n
  end.

(** Two clients answer alike whenever they are asked for [d] items. *)
Definition agreeAt (d : Z) (s1 s2 : SlackClient) : Prop :=
  (forall ch, slack_conversations_history s1 ch d = slack_conversations_history s2 ch d)
  /\ (forall q, slack_search_messages s1 q d = slack_search_messages s2 q d)
  /\ slack_conversations_list s1 d = slack_conversations_list s2 d.

(** A message and an environment for the examples: the build channel is
    configured and only the history call answers. *)
Definition sampleMessage (t : string) : RawMessage :=
  mkRaw "1700000000.123456" (Some t) None None None.

Definition historyEnv (h : Result HistoryResult) : Env :=
  mkEnv (Some "C0BUILDS")
    (constSlack h (Throw rangeError) (Throw rangeError) (Throw rangeError)).

(** * Properties *)

(** ** Strings *)

Lemma prefix_iff (a s : string) :
  prefix a s = true <-> exists post, s = a ++ post.
Proof.
  revert s; induction a as [|c a IH]; intros s.
  - split; [intros _; now exists s | intros _; now destruct s].
  - destruct s as [|d s]; simpl.
    + split; [discriminate | intros [post H]; discriminate].
    + destruct (ascii_dec c d) as [->|Hcd].
      * rewrite IH. split; intros [post H]; exists post.
        -- now rewrite H.
        -- now inversion H.
      * split; [discriminate | intros [post H]; inversion H; congruence].
Qed.

Lemma includes_iff (s sub : string) :
  includes s sub = true <-> exists pre post, s = pre ++ sub ++ post.
Proof.
  induction s as [|c s IH]; cbn [includes].
  - rewrite orb_false_r, prefix_iff. split.
    + intros [post H]. now exists "", post.
    + intros [pre [post H]]. destruct pre; simpl in H.
      * now exists post.
      * discriminate.
  - rewrite orb_true_iff, IH, prefix_iff. split.
    + intros [[post H] | [pre [post H]]].
      * now exists "", post.
      * exists (String c pre), post. simpl. now rewrite H.
    + intros [pre [post H]]. destruct pre as [|d pre]; simpl in H.
      * left. now exists post.
      * right. exists pre, post. now inversion H.
Qed.

Lemma toLowerCase_app (a b : string) :
  toLowerCase (a ++ b) = toLowerCase a ++ toLowerCase b.
Proof.
  induction a as [|c a IH]; simpl; [reflexivity | now rewrite IH].
Qed.

(** A text that contains a lower-case keyword as written also contains it
    when letter case is ignored. *)
Lemma contains_containsCI (text kw pre post : string) :
  text = pre ++ kw ++ post -> toLowerCase kw = kw -> containsCI text kw = true.
Proof.
  intros -> Hkw. unfold containsCI. apply includes_iff.
  exists (toLowerCase pre), (toLowerCase post).
  now rewrite !toLowerCase_app, Hkw.
Qed.

Lemma length_substring0 (n : nat) (s : string) :
  String.length (substring 0 n s) = Nat.min n (String.length s).
Proof.
  revert s; induction n as [|n IH]; intros [|c s]; simpl; auto.
Qed.

Lemma substring0_prefix (n : nat) (s : string) :
  exists rest, s = substring 0 n s ++ rest.
Proof.
  revert s; induction n as [|n IH]; intros [|c s]; simpl.
  - now exists "".
  - now exists (String c s).
  - now exists "".
  - destruct (IH s) as [rest H]. exists rest. now rewrite <- H.
Qed.

(** ** The status classifier *)

(** C1. The classifier is the first-match search over the keyword groups
    succeeded/success, failed/failure, started/running, cancelled/canceled,
    each keyword looked up as a substring of the lower-cased text; and a text
    that contains "failed" and "running" and no keyword of the succeeded
    group classifies as failed, whether the keywords are read with letter
    case ignored or as written. *)
Theorem classifyStatus_ordered_groups (text : string) :
  classifyStatus text = classifySpec text
  /\ (containsCI text "failed" = true -> containsCI text "running" = true ->
      containsCI text "succeeded" = false -> containsCI text "success" = false ->
      classifyStatus text = failed)
  /\ (forall p1 q1 p2 q2,
        text = p1 ++ "failed" ++ q1 -> text = p2 ++ "running" ++ q2 ->
        containsCI text "succeeded" = false -> containsCI text "success" = false ->
        classifyStatus text = failed).
Proof.
  assert (Hci : containsCI text "failed" = true ->
                containsCI text "succeeded" = false ->
                containsCI text "success" = false ->
                classifyStatus text = failed).
  { unfold containsCI, classifyStatus. intros -> -> ->. reflexivity. }
  split; [|split].
  - unfold classifySpec, classifyStatus, keywordGroups, firstGroup, existsb, containsCI.
    rewrite !orb_false_r. reflexivity.
  - intros Hf _ Hs1 Hs2. now apply Hci.
  - intros p1 q1 p2 q2 Hf _ Hs1 Hs2. apply Hci; trivial.
    now apply (contains_containsCI text "failed" p1 q1).
Qed.

Lemma classifyStatus_ordered_groups_witness :
  classifyStatus "Deploy FAILED while the tests were still running" = failed.
Proof.
  apply (proj1 (proj2 (classifyStatus_ordered_groups
                         "Deploy FAILED while the tests were still running")));
    reflexivity.
Defined.

(** ** The duration extractor *)

Lemma firstMatch_at (pre : list regex) (p : regex) (post : list regex)
  (s : string) (m : Captures) :
  (forall q, In q pre -> jsMatch s q = None) ->
  jsMatch s p = Some m ->
  firstMatch (pre ++ p :: post) s = Some m.
Proof.
  induction pre as [|q pre IH]; intros Hpre Hp; simpl.
  - now rewrite Hp.
  - rewrite (Hpre q (or_introl eq_refl)). apply IH; trivial.
    intros q' Hq'. apply Hpre. now right.
Qed.

Lemma firstMatch_none (ps : list regex) (s : string) :
  (forall q, In q ps -> jsMatch s q = None) -> firstMatch ps s = None.
Proof.
  induction ps as [|q ps IH]; intros H; simpl; [reflexivity|].
  rewrite (H q (or_introl eq_refl)). apply IH. intros q' Hq'. apply H. now right.
Qed.

(** C2. The five patterns are tried in the order duration:, took,
    completed in, bare minutes, MM:SS, and the first one that matches the
    combined text decides the result, whatever the later ones would match:
    the result comes from the "duration:" pattern whenever it matches, from
    the "took" pattern when that one does not, and so on down to MM:SS;
    "Build completed in 5 minutes 30 seconds" gives 5 minutes, 30 seconds,
    330 seconds in total, formatted "5m 30s"; a text that none of the five
    matches gives no duration.  The table at the end shows, for texts that
    one pattern alone matches and for texts that two neighbours of the
    order read differently, what each pattern would give and what the
    extractor returns. *)
Theorem extractDuration_first_pattern :
  durationPatterns =
    [durationPattern1; durationPattern2; durationPattern3;
     durationPattern4; durationPattern5]
  /\ (forall text atts pre p post m,
        durationPatterns = (pre ++ p :: post)%list ->
        (forall q, In q pre -> jsMatch (allText text atts) q = None) ->
        jsMatch (allText text atts) p = Some m ->
        extractDuration text atts = Some (durationOfMatch m))
  /\ extractDuration "Build completed in 5 minutes 30 seconds" None
     = Some (mkDuration 5 30 330 "5m 30s")
  /\ (forall text atts,
        (forall q, In q durationPatterns -> jsMatch (allText text atts) q = None) ->
        extractDuration text atts = None)
  /\ (forall text atts,
        extractDuration text atts
        = match jsMatch (allText text atts) durationPattern1 with
          | Some m => Some (durationOfMatch m)
          | None =>
          match jsMatch (allText text atts) durationPattern2 with
          | Some m => Some (durationOfMatch m)
          | None =>
          match jsMatch (allText text atts) durationPattern3 with
          | Some m => Some (durationOfMatch m)
          | None =>
          match jsMatch (allText text atts) durationPattern4 with
          | Some m => Some (durationOfMatch m)
          | None =>
          match jsMatch (allText text atts) durationPattern5 with
          | Some m => Some (durationOfMatch m)
          | None => None
          end end end end end)
  /\ map (fun t =>
            (map (fun p =>
                    option_map (fun m => formatted (durationOfMatch m))
                      (jsMatch (allText t None) p))
               [durationPattern1; durationPattern2; durationPattern3;
                durationPattern4; durationPattern5],
             option_map formatted (extractDuration t None)))
       ["duration: 45s"; "took 90 seconds"; "completed in 12";
        "Tests: 7 mins 2 secs"; "Elapsed 04:15";
        "took 3 min, duration: 7 min"; "completed in 9 min, took 3 min";
        "2 min queue, completed in 9 min"; "12:34 then 7 min";
        "Build completed in 5 minutes 30 seconds"]
     = [([Some "45m 0s"; None; None; None; None], Some "45m 0s");
        ([None; Some "90m 0s"; None; None; None], Some "90m 0s");
        ([None; None; Some "12m 0s"; None; None], Some "12m 0s");
        ([None; None; None; Some "7m 2s"; None], Some "7m 2s");
        ([None; None; None; None; Some "4m 15s"], Some "4m 15s");
        ([Some "7m 0s"; Some "3m 0s"; None; Some "3m 0s"; None], Some "7m 0s");
        ([None; Some "3m 0s"; Some "9m 0s"; Some "9m 0s"; None], Some "3m 0s");
        ([None; None; Some "9m 0s"; Some "2m 0s"; None], Some "9m 0s");
        ([None; None; None; Some "7m 0s"; Some "12m 34s"], Some "7m 0s");
        ([None; None; Some "5m 30s"; Some "5m 30s"; None], Some "5m 30s")].
Proof.
  split; [reflexivity|]. split; [|split; [|split; [|split]]].
  - intros text atts pre p post m Hsplit Hpre Hp.
    unfold extractDuration. rewrite Hsplit.
    now rewrite (firstMatch_at pre p post _ m Hpre Hp).
  - vm_compute. reflexivity.
  - intros text atts Hnone. unfold extractDuration.
    now rewrite (firstMatch_none _ _ Hnone).
  - intros text atts. unfold extractDuration, durationPatterns. cbn [firstMatch].
    repeat match goal with
           | |- context [match jsMatch ?x ?q with _ => _ end] =>
               destruct (jsMatch x q)
           end; reflexivity.
  - vm_compute. reflexivity.
Qed.

Ltac each_pattern H :=
  simpl in H;
  repeat (destruct H as [H | H]; [subst; vm_compute; reflexivity|]);
  contradiction.

(** The first pattern wins over the fifth although the fifth matches
    earlier in the text; and a text without any duration has none. *)
Lemma extractDuration_first_pattern_witness :
  extractDuration "12:34 duration: 7 min" None = Some (mkDuration 7 0 420 "7m 0s")
  /\ extractDuration "Archive uploaded" None = None.
Proof.
  split.
  - apply (proj1 (proj2 extractDuration_first_pattern)
             "12:34 duration: 7 min" None [] durationPattern1
             [durationPattern2; durationPattern3; durationPattern4; durationPattern5]
             [(0, "duration: 7 min"); (1, "7")]).
    + reflexivity.
    + intros q Hq. contradiction.
    + vm_compute. reflexivity.
  - apply (proj1 (proj2 (proj2 (proj2 extractDuration_first_pattern)))).
    intros q Hq. each_pattern Hq.
Defined.

(** Which of the five patterns match a text, and the duration read from
    it: the first number is the minutes whatever unit follows it. *)
Example durationPatterns_samples :
  map (fun t =>
         (map (fun p =>
                 match jsMatch (allText t None) p with
                 | Some _ => true
                 | None => false
                 end) durationPatterns,
          option_map formatted (extractDuration t None)))
    ["Duration: 12 min 5 sec"; "Archive took 3 minutes";
     "Build completed in 5 minutes 30 seconds"; "Tests: 7 mins 2 secs";
     "Elapsed 04:15"; "Build 42 succeeded"; "took 90 seconds"]
  = [([true; false; false; true; false], Some "12m 5s");
     ([false; true; false; true; false], Some "3m 0s");
     ([false; false; true; true; false], Some "5m 30s");
     ([false; false; false; true; false], Some "7m 2s");
     ([false; false; false; false; true], Some "4m 15s");
     ([false; false; false; false; false], None);
     ([false; true; false; false; false], Some "90m 0s")].
Proof. vm_compute. reflexivity. Qed.

(** The numbers of a duration are doubles.  A count of minutes beyond 2^53
    is rounded by [parseInt], the total again by [* 60] and [+]; [formatted]
    prints the doubles as [Number::toString] does, with an exponent from
    10^21 on, and [parseInt] of 310 digits is [Infinity]. *)
Example durationOfMatch_doubles :
  extractDuration "took 9007199254740993 min 07 sec" None
  = Some (mkDuration 9007199254740992 7 540431955284459520 "9007199254740992m 7s")
  /\ map numberToString
       [Finite 0; Finite 330; toDouble (2 ^ 53 + 3); toDouble 540431955284459527;
        toDouble (2 ^ 64); toDouble (10 ^ 21); toDouble (2 ^ 70); Infinity]
     = ["0"; "330"; "9007199254740996"; "540431955284459500";
        "18446744073709552000"; "1e+21"; "1.1805916207174113e+21"; "Infinity"]
  /\ option_map formatted
       (extractDuration "duration: 1000000000000000000000 min" None)
     = Some "1e+21m 0s"
  /\ option_map formatted
       (extractDuration ("took " ++ replicate 310 "9" ++ " min") None)
     = Some "Infinitym 0s".
Proof. repeat split; vm_compute; reflexivity. Qed.

(** ** The workflow extractor *)

(** C3, as the claim has it: the extractor does not stop at "Nutri-E". *)
Lemma extractWorkflow_nutri_counterexample :
  extractWorkflow "Workflow: Nutri-E build finished" None <> Ok (Some "Nutri-E").
Proof. vm_compute. discriminate. Qed.

(** C3, amended. On "Workflow: Nutri-E build finished", without attachments
    (absent or empty), the extractor returns "Nutri-E build finished": the
    first pattern captures what follows "Workflow: " up to the next comma or
    line break, and the capture is trimmed.  With a comma after the name it
    returns "Nutri-E". *)
Theorem extractWorkflow_rest_of_line :
  extractWorkflow "Workflow: Nutri-E build finished" None
    = Ok (Some "Nutri-E build finished")
  /\ extractWorkflow "Workflow: Nutri-E build finished" (Some [])
    = Ok (Some "Nutri-E build finished")
  /\ extractWorkflow "Workflow: Nutri-E, build finished" None = Ok (Some "Nutri-E").
Proof. repeat split; vm_compute; reflexivity. Qed.

(** ** The matcher: continuations and the fuel of the repetition *)

Lemma matchR_Star_loop {A : Type} (r : regex)
  (k : nat -> string -> Captures -> option A) i s caps :
  matchR (Star r) i s caps k = starLoop r k (String.length s) i s caps.
Proof. reflexivity. Qed.

Lemma starLoop_ext {A : Type} (r : regex)
  (IH : forall i s caps (k k' : nat -> string -> Captures -> option A),
      (forall i' s' c', reachable i s i' s' -> k i' s' c' = k' i' s' c') ->
      matchR r i s caps k = matchR r i s caps k') :
  forall fuel i s caps (k k' : nat -> string -> Captures -> option A),
    (forall i' s' c', reachable i s i' s' -> k i' s' c' = k' i' s' c') ->
    starLoop r k fuel i s caps = starLoop r k' fuel i s caps.
Proof.
  induction fuel as [|fuel IHf]; intros i s caps k k' Hk; simpl.
  - apply Hk. unfold reachable. lia.
  - rewrite (IH i s caps _
               (fun i' s' caps' =>
                  if Nat.eqb i' i then None else starLoop r k' fuel i' s' caps')).
    + rewrite (Hk i s caps) by (unfold reachable; lia). reflexivity.
    + intros i' s' c' [Hle Hlen]. destruct (Nat.eqb i' i); [reflexivity|].
      apply IHf. intros i2 s2 c2 [Hle2 Hlen2]. apply Hk. unfold reachable. lia.
Qed.

(** The matcher uses its continuation at reachable states only. *)
Lemma matchR_ext {A : Type} (r : regex) :
  forall i s caps (k k' : nat -> string -> Captures -> option A),
    (forall i' s' c', reachable i s i' s' -> k i' s' c' = k' i' s' c') ->
    matchR r i s caps k = matchR r i s caps k'.
Proof.
  induction r as [| |c|neg items|r1 IH1 r2 IH2|r1 IH1 r2 IH2|r1 IH1|r1 IH1|m r1 IH1];
    intros i s caps k k' Hk.
  - simpl. apply Hk. unfold reachable. lia.
  - simpl. destruct (Nat.eqb i 0); [|reflexivity]. apply Hk. unfold reachable. lia.
  - simpl. destruct s as [|a s']; [reflexivity|].
    destruct (Ascii.eqb _ _); [|reflexivity]. apply Hk. unfold reachable. simpl. lia.
  - simpl. destruct s as [|a s']; [reflexivity|].
    destruct (classMatches _ _ _); [|reflexivity]. apply Hk. unfold reachable. simpl. lia.
  - simpl. apply IH1. intros i1 s1 c1 [Hle Hlen]. apply IH2.
    intros i2 s2 c2 [Hle2 Hlen2]. apply Hk. unfold reachable. lia.
  - simpl. rewrite (IH1 i s caps k k' Hk), (IH2 i s caps k k' Hk). reflexivity.
  - simpl.
    rewrite (IH1 i s caps _
               (fun i' s' caps' => if Nat.eqb i' i then None else k' i' s' caps')).
    + rewrite (Hk i s caps) by (unfold reachable; lia). reflexivity.
    + intros i' s' c' Hr. destruct (Nat.eqb i' i); [reflexivity|]. now apply Hk.
  - rewrite !matchR_Star_loop. now apply starLoop_ext.
  - simpl. apply IH1. intros i1 s1 c1 Hr. now apply Hk.
Qed.

(** A successful match has reached its continuation at a reachable state. *)
Lemma matchR_reaches {A : Type} (r : regex) :
  forall i s caps (k : nat -> string -> Captures -> option A) x,
    matchR r i s caps k = Some x ->
    exists i' s' c', reachable i s i' s' /\ k i' s' c' = Some x.
Proof.
  induction r as [| |c|neg items|r1 IH1 r2 IH2|r1 IH1 r2 IH2|r1 IH1|r1 IH1|m r1 IH1];
    intros i s caps k x H; simpl in H.
  - exists i, s, caps. unfold reachable. split; [lia|trivial].
  - destruct (Nat.eqb i 0); [|discriminate].
    exists i, s, caps. unfold reachable. split; [lia|trivial].
  - destruct s as [|a s']; [discriminate|]. destruct (Ascii.eqb _ _); [|discriminate].
    exists (S i), s', caps. unfold reachable. simpl. split; [lia|trivial].
  - destruct s as [|a s']; [discriminate|].
    destruct (classMatches _ _ _); [|discriminate].
    exists (S i), s', caps. unfold reachable. simpl. split; [lia|trivial].
  - apply IH1 in H. destruct H as (i1 & s1 & c1 & [R1a R1b] & H1).
    apply IH2 in H1. destruct H1 as (i2 & s2 & c2 & [R2a R2b] & H2).
    exists i2, s2, c2. unfold reachable. split; [lia|trivial].
  - destruct (matchR r1 i s caps k) eqn:E1.
    + inversion H; subst. now apply IH1 in E1.
    + now apply IH2 in H.
  - match type of H with match ?M with _ => _ end = _ => destruct M eqn:E1 end.
    + inversion H; subst. apply IH1 in E1. destruct E1 as (i1 & s1 & c1 & R1 & H1).
      destruct (Nat.eqb i1 i); [discriminate|]. eauto.
    + exists i, s, caps. unfold reachable. split; [lia|trivial].
  - revert H. generalize (String.length s) as fuel. intros fuel. revert i s caps.
    induction fuel as [|fuel IHf]; intros i s caps H.
    + exists i, s, caps. unfold reachable. split; [lia|trivial].
    + match type of H with match ?M with _ => _ end = _ => destruct M eqn:E1 end.
      * inversion H; subst. apply IH1 in E1.
        destruct E1 as (i1 & s1 & c1 & [R1a R1b] & H1).
        destruct (Nat.eqb i1 i); [discriminate|].
        apply IHf in H1. destruct H1 as (i2 & s2 & c2 & [R2a R2b] & H2).
        exists i2, s2, c2. unfold reachable. split; [lia|trivial].
      * exists i, s, caps. unfold reachable. split; [lia|trivial].
  - apply IH1 in H. destruct H as (i1 & s1 & c1 & R1 & H1). eauto.
Qed.

(** A continuation that rejects every reachable state makes the match fail. *)
Lemma matchR_reject {A : Type} (r : regex) i s caps
  (k : nat -> string -> Captures -> option A) :
  (forall i' s' c', reachable i s i' s' -> k i' s' c' = None) ->
  matchR r i s caps k = None.
Proof.
  intros Hk. destruct (matchR r i s caps k) as [x|] eqn:E; [|reflexivity].
  apply matchR_reaches in E. destruct E as (i' & s' & c' & R & Hx).
  rewrite Hk in Hx; [discriminate|trivial].
Qed.

(** The fuel of the loop is enough: more of it changes nothing. *)
Lemma starLoop_fuel {A : Type} (r : regex) (k : nat -> string -> Captures -> option A) :
  forall f1 f2 i s caps,
    String.length s <= f1 -> String.length s <= f2 ->
    starLoop r k f1 i s caps = starLoop r k f2 i s caps.
Proof.
  assert (Z0 : forall f i s caps, String.length s = 0 ->
                 starLoop r k f i s caps = k i s caps).
  { intros [|f] i s caps Hs; simpl; [reflexivity|].
    rewrite matchR_reject; [reflexivity|].
    intros i' s' c' [Hle Hlen]. replace i' with i by lia. now rewrite Nat.eqb_refl. }
  induction f1 as [|f1 IH]; intros f2 i s caps H1 H2.
  - rewrite !Z0 by lia. reflexivity.
  - destruct f2 as [|f2]; [rewrite !Z0 by lia; reflexivity|].
    simpl.
    rewrite (matchR_ext r i s caps _
               (fun i' s' caps' =>
                  if Nat.eqb i' i then None else starLoop r k f2 i' s' caps')).
    + reflexivity.
    + intros i' s' c' [Hle Hlen]. destruct (Nat.eqb_spec i' i); [reflexivity|].
      apply IH; lia.
Qed.

(** [Star] satisfies the equation of a greedy repetition: one more
    iteration that consumes something and then the repetition again, or
    else the continuation. *)
Theorem matchR_Star_unfold {A : Type} (r : regex) i s caps
  (k : nat -> string -> Captures -> option A) :
  matchR (Star r) i s caps k
  = match matchR r i s caps
            (fun i' s' caps' =>
               if Nat.eqb i' i then None else matchR (Star r) i' s' caps' k) with
    | Some x => Some x
    | None => k i s caps
    end.
Proof.
  rewrite matchR_Star_loop.
  rewrite (starLoop_fuel r k (String.length s) (S (String.length s)) i s caps) by lia.
  simpl starLoop.
  rewrite (matchR_ext r i s caps _
             (fun i' s' caps' =>
                if Nat.eqb i' i then None else matchR (Star r) i' s' caps' k)).
  - reflexivity.
  - intros i' s' c' [Hle Hlen]. destruct (Nat.eqb_spec i' i); [reflexivity|].
    rewrite matchR_Star_loop. apply starLoop_fuel; lia.
Qed.

(** ** Captures of a successful match *)

Lemma has_cons (n m : nat) (v : string) (caps : Captures) :
  has n caps -> has n ((m, v) :: caps).
Proof. unfold has; simpl. destruct (Nat.eqb m n); congruence. Qed.

Lemma has_here (n : nat) (v : string) (caps : Captures) : has n ((n, v) :: caps).
Proof. unfold has; simpl. rewrite Nat.eqb_refl. discriminate. Qed.

(** A successful match reaches its continuation, with every earlier capture
    kept and the groups that [r] defines set. *)
Lemma matchR_captures {A : Type} (n : nat) (r : regex) :
  forall i s caps (k : nat -> string -> Captures -> option A) x,
    matchR r i s caps k = Some x ->
    exists i' s' caps',
      k i' s' caps' = Some x
      /\ (has n caps -> has n caps')
      /\ (defines n r = true -> has n caps').
Proof.
  induction r as [| |c|neg items|r1 IH1 r2 IH2|r1 IH1 r2 IH2|r1 IH1|r1 IH1|m r1 IH1];
    intros i s caps k x H; simpl in H.
  - exists i, s, caps. repeat split; auto; discriminate.
  - destruct (Nat.eqb i 0); [|discriminate].
    exists i, s, caps. repeat split; auto; discriminate.
  - destruct s as [|a s']; [discriminate|].
    destruct (Ascii.eqb _ _); [|discriminate].
    exists (S i), s', caps. repeat split; auto; discriminate.
  - destruct s as [|a s']; [discriminate|].
    destruct (classMatches _ _ _); [|discriminate].
    exists (S i), s', caps. repeat split; auto; discriminate.
  - apply IH1 in H. destruct H as (i1 & s1 & c1 & H1 & P1 & D1).
    apply IH2 in H1. destruct H1 as (i2 & s2 & c2 & H2 & P2 & D2).
    exists i2, s2, c2. repeat split; auto.
    simpl. intros D. apply orb_true_iff in D. destruct D; auto.
  - destruct (matchR r1 i s caps k) eqn:E1.
    + inversion H; subst. apply IH1 in E1. destruct E1 as (i1 & s1 & c1 & H1 & P1 & D1).
      exists i1, s1, c1. repeat split; auto.
      simpl. intros D. apply andb_true_iff in D. destruct D; auto.
    + apply IH2 in H. destruct H as (i1 & s1 & c1 & H1 & P1 & D1).
      exists i1, s1, c1. repeat split; auto.
      simpl. intros D. apply andb_true_iff in D. destruct D; auto.
  - match type of H with match ?M with _ => _ end = _ => destruct M eqn:E1 end.
    + inversion H; subst. apply IH1 in E1. destruct E1 as (i1 & s1 & c1 & H1 & P1 & D1).
      destruct (Nat.eqb i1 i); [discriminate|].
      exists i1, s1, c1. repeat split; auto. discriminate.
    + exists i, s, caps. repeat split; auto; discriminate.
  - revert H. generalize (String.length s) as fuel. intros fuel. revert i s caps.
    induction fuel as [|fuel IHf]; intros i s caps H.
    + exists i, s, caps. repeat split; auto; discriminate.
    + match type of H with match ?M with _ => _ end = _ => destruct M eqn:E1 end.
      * inversion H; subst. apply IH1 in E1. destruct E1 as (i1 & s1 & c1 & H1 & P1 & D1).
        destruct (Nat.eqb i1 i); [discriminate|].
        apply IHf in H1. destruct H1 as (i2 & s2 & c2 & H2 & P2 & D2).
        exists i2, s2, c2. repeat split; auto.
      * exists i, s, caps. repeat split; auto; discriminate.
  - apply IH1 in H. destruct H as (i1 & s1 & c1 & H1 & P1 & D1).
    eexists _, _, _. split; [exact H1|]. split.
    + intros Hc. apply has_cons; auto.
    + simpl. intros D. apply orb_true_iff in D. destruct D as [D|D].
      * apply Nat.eqb_eq in D. subst. apply has_here.
      * apply has_cons; auto.
Qed.

Lemma execFrom_captures (n : nat) (r : regex) (s : string) :
  defines n r = true -> forall i m, execFrom r i s = Some m -> has n m.
Proof.
  intros D. induction s as [|c s IH]; intros i m H; simpl in H.
  - match type of H with match ?M with _ => _ end = _ => destruct M eqn:E end;
      [|discriminate].
    inversion H; subst. apply (matchR_captures n) in E.
    destruct E as (i1 & s1 & c1 & H1 & _ & D1). inversion H1; subst.
    apply has_cons; auto.
  - match type of H with match ?M with _ => _ end = _ => destruct M eqn:E end.
    + inversion H; subst. apply (matchR_captures n) in E.
      destruct E as (i1 & s1 & c1 & H1 & _ & D1). inversion H1; subst.
      apply has_cons; auto.
    + eapply IH; eauto.
Qed.

Lemma firstMatch_captures (n : nat) (ps : list regex) (s : string) (m : Captures) :
  forallb (defines n) ps = true -> firstMatch ps s = Some m -> has n m.
Proof.
  induction ps as [|p ps IH]; simpl; [discriminate|].
  intros D H. apply andb_true_iff in D. destruct D as [Dp Dps].
  destruct (jsMatch s p) eqn:E.
  - inversion H; subst. eapply execFrom_captures; eauto.
  - auto.
Qed.

(** [match[1].trim()] never throws: both workflow patterns define group 1. *)
Lemma extractWorkflow_total (text : string) (atts : option (list Attachment)) :
  exists w, extractWorkflow text atts = Ok w.
Proof.
  unfold extractWorkflow.
  destruct (firstMatch workflowPatterns (allText text atts)) as [m|] eqn:E.
  - apply (firstMatch_captures 1) in E; [|reflexivity].
    unfold has in E. destruct (group 1 m); [eauto | congruence].
  - eauto.
Qed.

(** ** The message normalizer *)

Lemma mapM_total {A B : Type} (f : A -> Result B) (xs : list A) :
  (forall x, In x xs -> exists y, f x = Ok y) ->
  exists ys, mapM f xs = Ok ys /\ List.length ys = List.length xs.
Proof.
  induction xs as [|x xs IH]; intros H; simpl.
  - now exists [].
  - destruct (H x (or_introl eq_refl)) as [y Hy].
    destruct IH as (ys & Hys & Hlen); [intros x' Hx'; apply H; now right|].
    exists (y :: ys). rewrite Hy, Hys. simpl. now rewrite Hlen.
Qed.

Lemma parseMessage_ok (isoOfTs : string -> option string) (msg : RawMessage)
  (iso : string) :
  isoOfTs (ts msg) = Some iso ->
  exists w,
    extractWorkflow (orEmpty (text msg)) (attachments msg) = Ok w
    /\ parseMessage isoOfTs msg
       = Ok (mkBuild iso (classifyStatus (orEmpty (text msg))) w
               (extractDuration (orEmpty (text msg)) (attachments msg))
               (substring 0 500 (orEmpty (text msg)))
               (option_map (map summarize) (attachments msg))).
Proof.
  intros Hiso.
  destruct (extractWorkflow_total (orEmpty (text msg)) (attachments msg)) as [w Hw].
  exists w. split; [exact Hw|].
  unfold parseMessage, toISOString. rewrite Hiso. simpl. rewrite Hw. reflexivity.
Qed.

(** The shape of a successful normalization. *)
Lemma parseMessage_inv (isoOfTs : string -> option string) (msg : RawMessage)
  (b : ParsedBuild) :
  parseMessage isoOfTs msg = Ok b ->
  b_status b = classifyStatus (orEmpty (text msg))
  /\ extractWorkflow (orEmpty (text msg)) (attachments msg) = Ok (b_workflow b)
  /\ b_duration b = extractDuration (orEmpty (text msg)) (attachments msg)
  /\ b_text b = substring 0 500 (orEmpty (text msg))
  /\ b_attachments b = option_map (map summarize) (attachments msg).
Proof.
  unfold parseMessage, toISOString.
  destruct (isoOfTs (ts msg)); simpl; [|discriminate].
  destruct (extractWorkflow _ _); simpl; [|discriminate].
  intros H. inversion H; subst. simpl. auto.
Qed.

(** The fallback of the workflow extractor, without its definition: the
    title of the first attachment when it has 1 to 49 characters. *)
Lemma titleFallback_title (atts : option (list Attachment)) (a : Attachment)
  (rest : list Attachment) (t : string) :
  atts = Some (a :: rest) -> title a = Some t ->
  1 <= String.length t <= 49 ->
  titleFallback atts = Some t.
Proof.
  intros -> Ht [Hlo Hhi]. unfold titleFallback. rewrite Ht.
  destruct (Nat.ltb_spec 0 (String.length t)); [|lia].
  destruct (Nat.ltb_spec (String.length t) 50); [reflexivity | lia].
Qed.

Lemma titleFallback_no_title (atts : option (list Attachment)) :
  (forall a rest t,
     atts = Some (a :: rest) -> title a = Some t ->
     String.length t = 0 \/ 50 <= String.length t) ->
  titleFallback atts = None.
Proof.
  intros H. unfold titleFallback.
  destruct atts as [[|a rest]|]; trivial.
  destruct (title a) as [t|] eqn:Ht; trivial.
  specialize (H a rest t eq_refl Ht).
  destruct (Nat.ltb_spec 0 (String.length t)); [|reflexivity].
  destruct (Nat.ltb_spec (String.length t) 50); [lia | reflexivity].
Qed.

(** C4, as the claim has it, fails twice.  No workflow pattern matches the
    first message, and its workflow is the title of its first attachment,
    not absent.  The second message has the empty string for a timestamp:
    [parseFloat] gives [NaN], the date is invalid, [toISOString] throws and
    normalization raises [RangeError: Invalid time value], as it does for
    every message whose timestamp the conversion rejects. *)
Lemma parseMessage_title_counterexample :
  let atts := Some [mkAttachment (Some "Cuti-E-Admin") None (Some "good")] in
  (forall q, In q workflowPatterns ->
             jsMatch (allText "Pipeline finished" atts) q = None)
  /\ parseMessage sampleClock
       (mkRaw "1700000000.123456" (Some "Pipeline finished") atts None None)
     = Ok (mkBuild "2023-11-14T22:13:20.123Z" unknown (Some "Cuti-E-Admin") None
             "Pipeline finished" atts)
  /\ parseMessage sampleClock (mkRaw "" (Some "Pipeline finished") None None None)
     = Throw rangeError
  /\ (forall isoOfTs msg,
        isoOfTs (ts msg) = None -> parseMessage isoOfTs msg = Throw rangeError).
Proof.
  split; [|split; [|split]].
  - intros q Hq. each_pattern Hq.
  - vm_compute. reflexivity.
  - vm_compute. reflexivity.
  - intros isoOfTs msg H. unfold parseMessage, toISOString. rewrite H. reflexivity.
Qed.

(** C4, amended. For every raw message whose timestamp [Date] can render,
    whatever its body text and attachment list (absent ones included),
    normalization returns one ParsedBuild and does not throw; a list of such
    messages gives as many ParsedBuilds.  The status is unknown when no
    status keyword occurs.  When neither workflow pattern matches, the
    workflow is absent if the first attachment offers no title of 1 to 49
    characters (no attachments, no first attachment, no title, an empty
    title or one of 50 characters or more), and otherwise it is that title.
    The duration is absent when no duration pattern matches. *)
Theorem parseMessage_never_throws (isoOfTs : string -> option string) :
  (forall msg iso,
     isoOfTs (ts msg) = Some iso ->
     exists b,
       parseMessage isoOfTs msg = Ok b
       /\ ((forall kw,
              In kw ["succeeded"; "success"; "failed"; "failure";
                     "started"; "running"; "cancelled"; "canceled"] ->
              containsCI (orEmpty (text msg)) kw = false) ->
           b_status b = unknown)
       /\ ((forall q, In q workflowPatterns ->
              jsMatch (allText (orEmpty (text msg)) (attachments msg)) q = None) ->
           ((forall a rest t,
               attachments msg = Some (a :: rest) -> title a = Some t ->
               String.length t = 0 \/ 50 <= String.length t) ->
            b_workflow b = None)
           /\ (forall a rest t,
                 attachments msg = Some (a :: rest) -> title a = Some t ->
                 1 <= String.length t <= 49 ->
                 b_workflow b = Some t))
       /\ ((forall q, In q durationPatterns ->
              jsMatch (allText (orEmpty (text msg)) (attachments msg)) q = None) ->
           b_duration b = None))
  /\ (forall msgs,
        (forall m, In m msgs -> isoOfTs (ts m) <> None) ->
        exists bs,
          mapM (parseMessage isoOfTs) msgs = Ok bs
          /\ List.length bs = List.length msgs).
Proof.
  split.
  - intros msg iso Hiso.
    destruct (parseMessage_ok isoOfTs msg iso Hiso) as (w & Hw & Hp).
    eexists. split; [exact Hp|]. cbn [b_status b_workflow b_duration].
    split; [|split].
    + intros Hkw. unfold classifyStatus.
      unfold containsCI in Hkw.
      rewrite !Hkw by (simpl; tauto). reflexivity.
    + intros Hnone. unfold extractWorkflow in Hw.
      rewrite (firstMatch_none _ _ Hnone) in Hw. inversion Hw as [Hfb]. split.
      * intros Hno. now apply titleFallback_no_title.
      * intros a rest t Ha Ht Hlen. now apply (titleFallback_title _ a rest).
    + intros Hnone. unfold extractDuration.
      now rewrite (firstMatch_none _ _ Hnone).
  - intros msgs Hts. apply mapM_total. intros m Hm.
    destruct (isoOfTs (ts m)) as [iso|] eqn:Hiso; [|now apply Hts in Hm].
    destruct (parseMessage_ok isoOfTs m iso Hiso) as (w & _ & Hp). eauto.
Qed.

(** A message with nothing in it, then three messages that no workflow
    pattern matches: a title of 49 characters is the workflow, a title of
    50 characters and an empty title are not. *)
Lemma parseMessage_never_throws_witness :
  let withTitle t :=
    mkRaw "1700000000.123456" (Some "Pipeline finished")
      (Some [mkAttachment (Some t) None None]) None None in
  (exists b,
     parseMessage sampleClock (mkRaw "1700000000.123456" None None None None) = Ok b
     /\ b_status b = unknown /\ b_workflow b = None /\ b_duration b = None)
  /\ (exists b,
        parseMessage sampleClock (withTitle (replicate 49 "w")) = Ok b
        /\ b_workflow b = Some (replicate 49 "w"))
  /\ (exists b,
        parseMessage sampleClock (withTitle (replicate 50 "w")) = Ok b
        /\ b_workflow b = None)
  /\ (exists b,
        parseMessage sampleClock (withTitle "") = Ok b /\ b_workflow b = None)
  /\ (exists bs,
        mapM (parseMessage sampleClock)
          [withTitle "Cuti-E-Admin"; mkRaw "1700000000.123456" None None None None]
        = Ok bs
        /\ List.length bs = 2).
Proof.
  intros withTitle.
  split; [|split; [|split; [|split]]].
  - destruct (proj1 (parseMessage_never_throws sampleClock)
                (mkRaw "1700000000.123456" None None None None)
                "2023-11-14T22:13:20.123Z" eq_refl)
      as (b & Hb & Hst & Hw & Hd).
    exists b. split; [exact Hb|]. split; [|split].
    + apply Hst. intros kw Hkw. each_pattern Hkw.
    + apply Hw; [intros q Hq; each_pattern Hq|]. intros a rest t Ha. discriminate Ha.
    + apply Hd. intros q Hq. each_pattern Hq.
  - destruct (proj1 (parseMessage_never_throws sampleClock)
                (withTitle (replicate 49 "w")) "2023-11-14T22:13:20.123Z" eq_refl)
      as (b & Hb & _ & Hw & _).
    exists b. split; [exact Hb|].
    refine (proj2 (Hw _) _ [] _ eq_refl eq_refl _).
    + intros q Hq. each_pattern Hq.
    + vm_compute. split; apply Nat.leb_le; reflexivity.
  - destruct (proj1 (parseMessage_never_throws sampleClock)
                (withTitle (replicate 50 "w")) "2023-11-14T22:13:20.123Z" eq_refl)
      as (b & Hb & _ & Hw & _).
    exists b. split; [exact Hb|].
    apply Hw; [intros q Hq; each_pattern Hq|].
    intros a rest t Ha Ht. inversion Ha; subst. inversion Ht; subst.
    right. apply Nat.leb_le. reflexivity.
  - destruct (proj1 (parseMessage_never_throws sampleClock)
                (withTitle "") "2023-11-14T22:13:20.123Z" eq_refl)
      as (b & Hb & _ & Hw & _).
    exists b. split; [exact Hb|].
    apply Hw; [intros q Hq; each_pattern Hq|].
    intros a rest t Ha Ht. inversion Ha; subst. inversion Ht; subst.
    left. reflexivity.
  - destruct (proj2 (parseMessage_never_throws sampleClock)
                [withTitle "Cuti-E-Admin";
                 mkRaw "1700000000.123456" None None None None])
      as (bs & Hbs & Hlen).
    + intros m [<-|[<-|[]]]; discriminate.
    + exists bs. split; [exact Hbs | exact Hlen].
Defined.

Lemma substring0_firstn (n : nat) (s : string) :
  substring 0 n s = string_of_list_ascii (firstn n (list_ascii_of_string s)).
Proof.
  revert s; induction n as [|n IH]; intros [|c s]; simpl; trivial. now rewrite IH.
Qed.

Lemma summarize_spec (atts : list Attachment) :
  Forall2
    (fun a o =>
       title o = title a /\ color o = color a
       /\ match atext a with
          | None => atext o = None
          | Some t =>
              exists t' rest,
                atext o = Some t' /\ t = t' ++ rest
                /\ String.length t' = Nat.min 200 (String.length t)
                /\ String.length t' <= 200
                /\ t' = string_of_list_ascii (firstn 200 (list_ascii_of_string t))
          end)
    atts (map summarize atts).
Proof.
  induction atts as [|a atts IH]; simpl; constructor; trivial.
  simpl. repeat split. destruct (atext a) as [t|]; simpl; [|reflexivity].
  destruct (substring0_prefix 200 t) as [rest Hrest].
  exists (substring 0 200 t), rest. rewrite length_substring0.
  repeat split; trivial; [apply Nat.le_min_l | apply substring0_firstn].
Qed.

(** C7. Whatever the input lengths, the text of a ParsedBuild is the first
    500 characters of the body text (all of it when it is shorter): a
    prefix of it of length min(500, its length), hence of at most 500
    characters; the attachments come out one for one, each text the first
    200 characters of the input text (absent when the input text is
    absent), each title as it came in. *)
Theorem parseMessage_truncates (isoOfTs : string -> option string)
  (msg : RawMessage) (b : ParsedBuild) :
  parseMessage isoOfTs msg = Ok b ->
  String.length (b_text b) <= 500
  /\ (exists rest, orEmpty (text msg) = b_text b ++ rest)
  /\ String.length (b_text b) = Nat.min 500 (String.length (orEmpty (text msg)))
  /\ b_text b
     = string_of_list_ascii (firstn 500 (list_ascii_of_string (orEmpty (text msg))))
  /\ match attachments msg with
     | None => b_attachments b = None
     | Some atts =>
         exists outs,
           b_attachments b = Some outs
           /\ Forall2
                (fun a o =>
                   title o = title a /\ color o = color a
                   /\ match atext a with
                      | None => atext o = None
                      | Some t =>
                          exists t' rest,
                            atext o = Some t' /\ t = t' ++ rest
                            /\ String.length t' = Nat.min 200 (String.length t)
                            /\ String.length t' <= 200
                            /\ t' = string_of_list_ascii
                                      (firstn 200 (list_ascii_of_string t))
                      end)
                atts outs
     end.
Proof.
  intros H. apply parseMessage_inv in H.
  destruct H as (_ & _ & _ & Ht & Ha). rewrite Ht, Ha.
  split; [|split; [|split; [|split]]].
  - rewrite length_substring0. apply Nat.le_min_l.
  - apply substring0_prefix.
  - apply length_substring0.
  - apply substring0_firstn.
  - destruct (attachments msg) as [atts|]; simpl; [|reflexivity].
    exists (map summarize atts). split; [reflexivity | apply summarize_spec].
Qed.

(** A body of 624 characters and an attachment text of 250 come out with
    500 and 200, the title as it is. *)
Lemma parseMessage_truncates_witness :
  let msg :=
    mkRaw "1700000000.123456"
      (Some ("Nutri-E build succeeded " ++ replicate 600 "x"))
      (Some [mkAttachment (Some "Nutri-E") (Some (replicate 250 "y")) None])
      None None in
  exists b,
    parseMessage sampleClock msg = Ok b
    /\ String.length (b_text b) = 500
    /\ b_text b = "Nutri-E build succeeded " ++ replicate 476 "x"
    /\ b_attachments b
       = Some [mkAttachment (Some "Nutri-E") (Some (replicate 200 "y")) None].
Proof.
  intros msg.
  destruct (parseMessage sampleClock msg) as [b|e] eqn:E;
    [|vm_compute in E; discriminate].
  exists b. split; [reflexivity|].
  destruct (parseMessage_truncates sampleClock msg b E)
    as (_ & _ & Hlen & Htext & outs & Houts & Hall).
  split; [rewrite Hlen; vm_compute; reflexivity|].
  split; [rewrite Htext; vm_compute; reflexivity|].
  rewrite Houts. inversion Hall as [|a o atts outs' Ho Hrest]; subst.
  inversion Hrest; subst. destruct Ho as (Ht & Hc & t' & rest & Ha & _ & _ & _ & Hy).
  destruct o as [ot oa oc]. simpl in *. subst. vm_compute. reflexivity.
Defined.

(** C9. The status of a ParsedBuild is a function of the body text alone:
    two raw messages with the same body text get the same status, whatever
    their attachments; workflow and duration, read from the combined text,
    do change with the attachments. *)
Theorem status_ignores_attachments :
  (forall isoOfTs m1 m2 b1 b2,
     text m1 = text m2 ->
     parseMessage isoOfTs m1 = Ok b1 ->
     parseMessage isoOfTs m2 = Ok b2 ->
     b_status b1 = b_status b2)
  /\ (let atts := Some [mkAttachment (Some "Nutri-E") (Some "Build failed, took 4 min") None] in
      extractWorkflow "Archive ready" None <> extractWorkflow "Archive ready" atts
      /\ extractDuration "Archive ready" None <> extractDuration "Archive ready" atts).
Proof.
  split.
  - intros isoOfTs m1 m2 b1 b2 Ht H1 H2.
    apply parseMessage_inv in H1. apply parseMessage_inv in H2.
    destruct H1 as (-> & _). destruct H2 as (-> & _). now rewrite Ht.
  - split; vm_compute; discriminate.
Qed.

Lemma status_ignores_attachments_witness :
  b_status (mkBuild "2023-11-14T22:13:20.123Z" unknown None None "Archive ready" None)
  = b_status (mkBuild "2023-11-14T22:13:20.123Z" unknown (Some "Archive ready Nutri-E")
                (Some (mkDuration 4 0 240 "4m 0s")) "Archive ready"
                (Some [mkAttachment (Some "Nutri-E") (Some "Build failed, took 4 min") None])).
Proof.
  apply (proj1 status_ignores_attachments sampleClock
           (mkRaw "1700000000.123456" (Some "Archive ready") None None None)
           (mkRaw "1700000000.123456" (Some "Archive ready")
              (Some [mkAttachment (Some "Nutri-E") (Some "Build failed, took 4 min") None])
              None None));
    vm_compute; reflexivity.
Defined.

(** ** The fetch limit *)

Lemma truthy_toLowerCase (o : option string) :
  truthy (option_map toLowerCase o) = truthy o.
Proof. destruct o as [[|c s]|]; reflexivity. Qed.

Lemma truthy_workflowFilter (args : option Args) :
  truthy (workflowFilterOf args) = truthy (argOf arg_workflow args).
Proof. apply truthy_toLowerCase. Qed.

(** C6, as the claim has it: with a filter and a limit of 25, L is 20 and
    min(L*4, 100) is 80, but 100 messages are requested. *)
Lemma fetchLimit_clamp_counterexample :
  let args := Some (mkArgs (Some 25%Z) (Some "Nutri-E") None None None) in
  resultLimit args = 20%Z
  /\ fetchLimit args = 100%Z
  /\ fetchLimit args <> Z.min (resultLimit args * 4) 100.
Proof. repeat split. vm_compute. discriminate. Qed.

(** C6, amended. With a workflow filter present, check_build_status requests
    min(l*4, 100) raw messages, where l is the limit argument, 5 when it is
    absent or 0, and not clamped to 20 for this request; this is
    min(L*4, 100) for the clamped L whenever l is at most 20.  With no
    filter it requests exactly L = min(l, 20) messages.  The answer of the
    tool depends on the client only through the history call with that
    limit. *)
Theorem fetchLimit_overfetch (args : option Args) :
  (truthy (argOf arg_workflow args) = true ->
   fetchLimit args = Z.min (limitOr (argOf arg_limit args) 5 * 4) 100)
  /\ (truthy (argOf arg_workflow args) = true ->
      (limitOr (argOf arg_limit args) 5 <= 20)%Z ->
      fetchLimit args = Z.min (resultLimit args * 4) 100)
  /\ (truthy (argOf arg_workflow args) = false ->
      fetchLimit args = resultLimit args)
  /\ (forall isoOfTs env1 env2 ch,
        buildChannelId env1 = Some ch ->
        buildChannelId env2 = Some ch ->
        slack_conversations_history (slack env1) ch (fetchLimit args)
        = slack_conversations_history (slack env2) ch (fetchLimit args) ->
        check_build_status isoOfTs env1 args = check_build_status isoOfTs env2 args).
Proof.
  unfold fetchLimit, resultLimit. rewrite truthy_workflowFilter.
  split; [|split; [|split]].
  - intros ->. reflexivity.
  - intros -> Hl. now rewrite (Z.min_l _ 20).
  - intros ->. reflexivity.
  - intros isoOfTs env1 env2 ch H1 H2 Hh.
    unfold check_build_status. rewrite H1, H2.
    destruct ch as [|c0 cs]; [reflexivity|].
    unfold fetchLimit. rewrite truthy_workflowFilter. now rewrite Hh.
Qed.

Lemma fetchLimit_overfetch_witness :
  fetchLimit (Some (mkArgs (Some 7%Z) (Some "Nutri-E") None None None)) = 28%Z
  /\ fetchLimit (Some (mkArgs (Some 25%Z) (Some "Nutri-E") None None None)) = 100%Z
  /\ fetchLimit (Some (mkArgs (Some 25%Z) None None None None)) = 20%Z.
Proof.
  split; [|split].
  - rewrite (proj1 (proj2 (fetchLimit_overfetch
               (Some (mkArgs (Some 7%Z) (Some "Nutri-E") None None None)))));
      [reflexivity | reflexivity | vm_compute; discriminate].
  - rewrite (proj1 (fetchLimit_overfetch
               (Some (mkArgs (Some 25%Z) (Some "Nutri-E") None None None))));
      reflexivity.
  - rewrite (proj1 (proj2 (proj2 (fetchLimit_overfetch
               (Some (mkArgs (Some 25%Z) None None None None))))));
      reflexivity.
Defined.

(** ** The filter and the limit *)

Lemma sliceTo_nonneg {A : Type} (e : Z) (xs : list A) :
  (0 <= e)%Z -> sliceTo e xs = firstn (Z.to_nat e) xs.
Proof.
  intros He. unfold sliceTo.
  destruct (Z.ltb_spec e 0) as [Hlt|_]; [lia|].
  destruct (Z.le_ge_cases e (Z.of_nat (List.length xs))) as [Hle|Hge].
  - now rewrite Z.min_l.
  - rewrite Z.min_r by trivial. rewrite Nat2Z.id.
    rewrite firstn_all. symmetry. apply firstn_all2. lia.
Qed.






(** ** The dispatcher *)

Ltac split_matches :=
  repeat match goal with
         | |- context [match ?x with _ => _ end] => destruct x eqn:?
         end.

Ltac unflagged tool :=
  unfold tool, searchBody, bind; split_matches;
  intros H; inversion H; subst; reflexivity.

Lemma check_build_status_unflagged isoOfTs env args e :
  check_build_status isoOfTs env args = Ok e -> isError e = None.
Proof. unflagged check_build_status. Qed.

Lemma get_channel_messages_unflagged isoOfTs env args e :
  get_channel_messages isoOfTs env args = Ok e -> isError e = None.
Proof. unflagged get_channel_messages. Qed.

Lemma searchBody_unflagged isoOfTs env query limit e :
  searchBody isoOfTs env query limit = Ok e -> isError e = None.
Proof. unflagged searchBody. Qed.

Lemma search_messages_unflagged isoOfTs env args e :
  search_messages isoOfTs env args = Ok e -> isError e = None.
Proof.
  unfold search_messages.
  destruct (argOf arg_query args) as [[|c0 cs]|];
    try (intros H; inversion H; reflexivity).
  destruct (searchBody _ _ _ _) as [e'|err] eqn:E.
  - intros H; inversion H; subst. eapply searchBody_unflagged; eauto.
  - destruct (dataError err) as [code|]; [|discriminate].
    destruct (String.eqb code "missing_scope"); [|discriminate].
    intros H; inversion H; reflexivity.
Qed.

Lemma send_message_unflagged env args e :
  send_message env args = Ok e -> isError e = None.
Proof. unflagged send_message. Qed.

Lemma list_channels_unflagged env args e :
  list_channels env args = Ok e -> isError e = None.
Proof. unflagged list_channels. Qed.

Lemma dispatch_unknown isoOfTs env nm args :
  ~ knownTool nm ->
  dispatch isoOfTs env (mkRequest nm args)
  = Ok (mkEnvelope (Plain ("Unknown tool: " ++ nm)) (Some true)).
Proof.
  intros Hn. unfold dispatch. cbn [name arguments].
  repeat match goal with
         | |- context [String.eqb nm ?t] =>
             destruct (String.eqb_spec nm t) as [->|_];
             [exfalso; apply Hn; unfold knownTool; simpl; tauto|]
         end.
  reflexivity.
Qed.

Lemma dispatch_known_unflagged isoOfTs env req e :
  knownTool (name req) -> dispatch isoOfTs env req = Ok e -> isError e = None.
Proof.
  intros Hk. unfold dispatch.
  destruct Hk as [<-|[<-|[<-|[<-|[<-|[]]]]]]; cbn [String.eqb Ascii.eqb Bool.eqb];
    eauto using check_build_status_unflagged, get_channel_messages_unflagged,
      search_messages_unflagged, send_message_unflagged, list_channels_unflagged.
Qed.

(** A message whose timestamp [Date] rejects makes the [map] throw. *)
Lemma mapM_parseMessage_invalid isoOfTs (msgs : list RawMessage) :
  (exists m, In m msgs /\ isoOfTs (ts m) = None) ->
  mapM (parseMessage isoOfTs) msgs = Throw rangeError.
Proof.
  induction msgs as [|m0 ms IH]; intros (m & Hin & Hm); [contradiction|].
  simpl. destruct (isoOfTs (ts m0)) as [iso|] eqn:E0.
  - destruct (parseMessage_ok isoOfTs m0 iso E0) as (w & _ & ->). cbn [bind].
    destruct Hin as [->|Hin]; [congruence|].
    rewrite IH by eauto. reflexivity.
  - unfold parseMessage, toISOString. rewrite E0. reflexivity.
Qed.

(** C8, as the claim has it: the rejection of the search call with
    missing_scope is an exception thrown during tool handling, yet the
    envelope carries no error flag and another text; and where the flag is
    set, the text is the message behind a prefix, not the message. *)
Lemma missing_scope_counterexample :
  let e := mkError "An API error occurred: missing_scope" (Some "missing_scope") in
  let env := mkEnv (Some "C0BUILDS") (failingSlack e) in
  let search :=
    mkRequest "search_messages" (Some (mkArgs None None None (Some "build failed") None)) in
  slack_search_messages (slack env) "build failed" 10 = Throw e
  /\ callTool sampleClock env search = mkEnvelope (Plain missingScopeText) None
  /\ isError (callTool sampleClock env search) <> Some true
  /\ content (callTool sampleClock env search) <> Plain (message e)
  /\ callTool sampleClock env (mkRequest "list_channels" None)
     = mkEnvelope (Plain "Slack API error: An API error occurred: missing_scope") (Some true)
  /\ content (callTool sampleClock env (mkRequest "list_channels" None))
     <> Plain (message e).
Proof. repeat split; vm_compute; discriminate. Qed.

(** C8, amended. Every exception that leaves the switch is caught by the
    handler and returned as an envelope with isError true and the text
    "Slack API error: " followed by the exception's message.  Such are: a
    rejected history, post or list call, a rejected search call unless its
    error code is missing_scope (search_messages answers that one itself,
    without the flag), and a message timestamp that [Date] rejects.  An
    unknown tool name gives an envelope with isError true and the text
    "Unknown tool: " followed by the name. *)
Theorem callTool_error_envelopes (isoOfTs : string -> option string)
  (env : Env) (args : option Args) :
  (forall req e,
     dispatch isoOfTs env req = Throw e -> callTool isoOfTs env req = caught e)
  /\ (forall ch e,
        buildChannelId env = Some ch -> ch <> "" ->
        slack_conversations_history (slack env) ch (fetchLimit args) = Throw e ->
        callTool isoOfTs env (mkRequest "check_build_status" args) = caught e)
  /\ (forall ch msgs,
        buildChannelId env = Some ch -> ch <> "" ->
        slack_conversations_history (slack env) ch (fetchLimit args)
        = Ok (mkHistory (Some msgs)) ->
        (exists m, In m msgs /\ isoOfTs (ts m) = None) ->
        callTool isoOfTs env (mkRequest "check_build_status" args) = caught rangeError)
  /\ (forall ch e,
        orElse (argOf arg_channel_id args) (buildChannelId env) = Some ch -> ch <> "" ->
        slack_conversations_history (slack env) ch
          (Z.min (limitOr (argOf arg_limit args) 10) 100) = Throw e ->
        callTool isoOfTs env (mkRequest "get_channel_messages" args) = caught e)
  /\ (forall q e,
        argOf arg_query args = Some q -> q <> "" ->
        slack_search_messages (slack env) q
          (Z.min (limitOr (argOf arg_limit args) 10) 100) = Throw e ->
        dataError e <> Some "missing_scope" ->
        callTool isoOfTs env (mkRequest "search_messages" args) = caught e)
  /\ (forall ch t e,
        orElse (argOf arg_channel_id args) (buildChannelId env) = Some ch -> ch <> "" ->
        argOf arg_text args = Some t -> t <> "" ->
        slack_chat_postMessage (slack env) ch t = Throw e ->
        callTool isoOfTs env (mkRequest "send_message" args) = caught e)
  /\ (forall e,
        slack_conversations_list (slack env)
          (Z.min (limitOr (argOf arg_limit args) 50) 200) = Throw e ->
        callTool isoOfTs env (mkRequest "list_channels" args) = caught e)
  /\ (forall nm,
        ~ knownTool nm ->
        callTool isoOfTs env (mkRequest nm args)
        = mkEnvelope (Plain ("Unknown tool: " ++ nm)) (Some true)).
Proof.
  repeat apply conj.
  - intros req e H. unfold callTool. now rewrite H.
  - intros ch e Hch Hne Hh. unfold callTool, dispatch.
    cbn [name arguments String.eqb Ascii.eqb Bool.eqb].
    unfold check_build_status. rewrite Hch.
    destruct ch as [|c0 cs]; [congruence|]. now rewrite Hh.
  - intros ch msgs Hch Hne Hh Hbad. unfold callTool, dispatch.
    cbn [name arguments String.eqb Ascii.eqb Bool.eqb].
    unfold check_build_status. rewrite Hch.
    destruct ch as [|c0 cs]; [congruence|]. rewrite Hh. cbn [bind messages].
    destruct msgs as [|m0 ms]; [destruct Hbad as (m & [] & _)|].
    now rewrite (mapM_parseMessage_invalid isoOfTs (m0 :: ms) Hbad).
  - intros ch e Hch Hne Hh. unfold callTool, dispatch.
    cbn [name arguments String.eqb Ascii.eqb Bool.eqb].
    unfold get_channel_messages. rewrite Hch.
    destruct ch as [|c0 cs]; [congruence|]. now rewrite Hh.
  - intros q e Hq Hne Hs Hcode. unfold callTool, dispatch.
    cbn [name arguments String.eqb Ascii.eqb Bool.eqb].
    unfold search_messages. rewrite Hq.
    destruct q as [|c0 cs]; [congruence|].
    unfold searchBody. rewrite Hs. cbn [bind].
    destruct (dataError e) as [code|]; [|reflexivity].
    destruct (String.eqb_spec code "missing_scope") as [->|_]; [congruence|reflexivity].
  - intros ch t e Hch Hne Ht Hnt Hp. unfold callTool, dispatch.
    cbn [name arguments String.eqb Ascii.eqb Bool.eqb].
    unfold send_message. rewrite Hch.
    destruct ch as [|c0 cs]; [congruence|]. rewrite Ht.
    destruct t as [|t0 t']; [congruence|]. now rewrite Hp.
  - intros e Hl. unfold callTool, dispatch.
    cbn [name arguments String.eqb Ascii.eqb Bool.eqb].
    unfold list_channels. now rewrite Hl.
  - intros nm Hn. unfold callTool. now rewrite dispatch_unknown.
Qed.

Lemma callTool_error_envelopes_witness :
  let e := mkError "An API error occurred: channel_not_found" (Some "channel_not_found") in
  let env := mkEnv (Some "C0BUILDS") (failingSlack e) in
  callTool sampleClock env (mkRequest "check_build_status" None)
  = mkEnvelope (Plain "Slack API error: An API error occurred: channel_not_found")
      (Some true)
  /\ callTool sampleClock env (mkRequest "restart_build" None)
     = mkEnvelope (Plain "Unknown tool: restart_build") (Some true).
Proof.
  intros e env. split.
  - apply (proj1 (proj2 (callTool_error_envelopes sampleClock env None))
             "C0BUILDS" e); [reflexivity | discriminate | reflexivity].
  - apply (proj2 (proj2 (proj2 (proj2 (proj2 (proj2 (proj2
             (callTool_error_envelopes sampleClock env None)))))))
             "restart_build").
    unfold knownTool. simpl. intros H.
    repeat (destruct H as [H|H]; [discriminate|]). exact H.
Defined.

(** C10. The errors that the tool handlers answer themselves -
    check_build_status without a configured build channel, search_messages
    without a query, send_message without a channel or without a text, and
    the missing_scope rejection of the search call - come back in an
    envelope without the isError property, as does every successful call of
    a known tool; only the unknown-tool and the caught-exception envelopes
    carry isError true.  The flag therefore does not tell these errors from
    successes. *)
Theorem soft_errors_unflagged (isoOfTs : string -> option string)
  (env : Env) (args : option Args) :
  (truthy (buildChannelId env) = false ->
   callTool isoOfTs env (mkRequest "check_build_status" args)
   = mkEnvelope
       (Plain "Error: SLACK_BUILD_CHANNEL_ID not configured. Please set it in your MCP config.")
       None)
  /\ (truthy (argOf arg_query args) = false ->
      callTool isoOfTs env (mkRequest "search_messages" args)
      = mkEnvelope (Plain "Error: query parameter is required") None)
  /\ (truthy (orElse (argOf arg_channel_id args) (buildChannelId env)) = false ->
      callTool isoOfTs env (mkRequest "send_message" args)
      = mkEnvelope
          (Plain "Error: No channel_id provided and SLACK_BUILD_CHANNEL_ID not configured.")
          None)
  /\ (truthy (orElse (argOf arg_channel_id args) (buildChannelId env)) = true ->
      truthy (argOf arg_text args) = false ->
      callTool isoOfTs env (mkRequest "send_message" args)
      = mkEnvelope (Plain "Error: text parameter is required") None)
  /\ (forall q e,
        argOf arg_query args = Some q -> q <> "" ->
        slack_search_messages (slack env) q
          (Z.min (limitOr (argOf arg_limit args) 10) 100) = Throw e ->
        dataError e = Some "missing_scope" ->
        callTool isoOfTs env (mkRequest "search_messages" args)
        = mkEnvelope
            (Plain "Error: Bot token missing 'search:read' scope. Add it in your Slack App settings.")
            None)
  /\ (forall req e,
        knownTool (name req) -> dispatch isoOfTs env req = Ok e ->
        isError (callTool isoOfTs env req) = None)
  /\ (forall nm,
        ~ knownTool nm -> isError (callTool isoOfTs env (mkRequest nm args)) = Some true)
  /\ (forall req e,
        dispatch isoOfTs env req = Throw e ->
        isError (callTool isoOfTs env req) = Some true).
Proof.
  repeat apply conj.
  - intros Hch. unfold callTool, dispatch.
    cbn [name arguments String.eqb Ascii.eqb Bool.eqb].
    unfold check_build_status.
    destruct (buildChannelId env) as [[|c0 cs]|]; try reflexivity; discriminate.
  - intros Hq. unfold callTool, dispatch.
    cbn [name arguments String.eqb Ascii.eqb Bool.eqb].
    unfold search_messages.
    destruct (argOf arg_query args) as [[|c0 cs]|]; try reflexivity; discriminate.
  - intros Hch. unfold callTool, dispatch.
    cbn [name arguments String.eqb Ascii.eqb Bool.eqb].
    unfold send_message.
    destruct (orElse _ _) as [[|c0 cs]|]; try reflexivity; discriminate.
  - intros Hch Ht. unfold callTool, dispatch.
    cbn [name arguments String.eqb Ascii.eqb Bool.eqb].
    unfold send_message.
    destruct (orElse _ _) as [[|c0 cs]|]; try discriminate.
    destruct (argOf arg_text args) as [[|t0 t']|]; try reflexivity; discriminate.
  - intros q e Hq Hne Hs Hcode. unfold callTool, dispatch.
    cbn [name arguments String.eqb Ascii.eqb Bool.eqb].
    unfold search_messages. rewrite Hq.
    destruct q as [|c0 cs]; [congruence|].
    unfold searchBody. rewrite Hs. cbn [bind]. rewrite Hcode. reflexivity.
  - intros req e Hk Hd. unfold callTool. rewrite Hd.
    eapply dispatch_known_unflagged; eauto.
  - intros nm Hn. unfold callTool. now rewrite dispatch_unknown.
  - intros req e Hd. unfold callTool. now rewrite Hd.
Qed.

Lemma soft_errors_unflagged_witness :
  let e := mkError "An API error occurred: missing_scope" (Some "missing_scope") in
  let env := mkEnv None (failingSlack e) in
  isError (callTool sampleClock env (mkRequest "check_build_status" None)) = None
  /\ isError (callTool sampleClock env
                (mkRequest "search_messages"
                   (Some (mkArgs None None None (Some "build failed") None)))) = None.
Proof.
  intros e env. split.
  - rewrite (proj1 (soft_errors_unflagged sampleClock env None)); reflexivity.
  - rewrite (proj1 (proj2 (proj2 (proj2 (proj2
               (soft_errors_unflagged sampleClock env
                  (Some (mkArgs None None None (Some "build failed") None)))))))
               "build failed" e);
      [reflexivity | reflexivity | discriminate | reflexivity | reflexivity].
Defined.

(** * Further properties of the handler *)

(** ** Soundness of the matcher *)

Lemma string_app_assoc (a b c : string) : (a ++ b) ++ c = a ++ b ++ c.
Proof. induction a as [|x a IH]; simpl; [reflexivity | now rewrite IH]. Qed.

Lemma string_app_nil_r (a : string) : a ++ "" = a.
Proof. induction a as [|x a IH]; simpl; [reflexivity | now rewrite IH]. Qed.

Lemma string_length_app (a b : string) :
  String.length (a ++ b) = String.length a + String.length b.
Proof. induction a as [|x a IH]; simpl; [reflexivity | now rewrite IH]. Qed.

Lemma substring0_app (w s : string) : substring 0 (String.length w) (w ++ s) = w.
Proof.
  induction w as [|x w IH]; simpl.
  - now destruct s.
  - now rewrite IH.
Qed.

Lemma capsOK_cons P n v caps : P n v -> capsOK P caps -> capsOK P ((n, v) :: caps).
Proof.
  intros Hv Hc m u [E|Hin]; [inversion E; subst; exact Hv | now apply Hc].
Qed.

Lemma capsOK_group P n m v : capsOK P m -> group n m = Some v -> P n v.
Proof.
  intros C. induction m as [|[k u] m IH]; simpl; [discriminate|].
  destruct (Nat.eqb_spec k n) as [->|].
  - intros E. inversion E; subst. apply C. now left.
  - intros E. apply IH; trivial. intros a b Hin. apply C. now right.
Qed.

Lemma starLoop_sound {A : Type} (P : nat -> string -> Prop) (r : regex)
  (IH : forall i s caps (k : nat -> string -> Captures -> option A) x,
      capsOK P caps -> matchR r i s caps k = Some x ->
      exists w s' c',
        s = w ++ s' /\ lang r i w /\ capsOK P c'
        /\ k (i + String.length w) s' c' = Some x)
  (k : nat -> string -> Captures -> option A) :
  forall fuel i s caps x,
    capsOK P caps -> starLoop r k fuel i s caps = Some x ->
    exists w s' c',
      s = w ++ s' /\ lang (Star r) i w /\ capsOK P c'
      /\ k (i + String.length w) s' c' = Some x.
Proof.
  induction fuel as [|fuel IHf]; intros i s caps x Hc H; simpl in H.
  - exists "", s, caps. rewrite Nat.add_0_r. repeat split; auto. constructor.
  - match type of H with match ?M with _ => _ end = _ => destruct M eqn:E end.
    + inversion H; subst. apply IH in E; trivial.
      destruct E as (w1 & s1 & c1 & -> & L1 & C1 & K1).
      destruct (Nat.eqb _ i); [discriminate|].
      apply IHf in K1; trivial.
      destruct K1 as (w2 & s2 & c2 & -> & L2 & C2 & K2).
      exists (w1 ++ w2), s2, c2.
      rewrite string_app_assoc, string_length_app, Nat.add_assoc.
      repeat split; auto. now constructor.
    + exists "", s, caps. rewrite Nat.add_0_r. repeat split; auto. constructor.
Qed.

(** What the matcher accepts is a word of the pattern, at the head of the
    input, and what it captures are words of the groups. *)
Lemma matchR_sound {A : Type} (P : nat -> string -> Prop) (r : regex) :
  groupsOK P r ->
  forall i s caps (k : nat -> string -> Captures -> option A) x,
    capsOK P caps -> matchR r i s caps k = Some x ->
    exists w s' c',
      s = w ++ s' /\ lang r i w /\ capsOK P c'
      /\ k (i + String.length w) s' c' = Some x.
Proof.
  induction r as [| |c|neg items|r1 IH1 r2 IH2|r1 IH1 r2 IH2|r1 IH1|r1 IH1|m r1 IH1];
    intros G i s caps k x Hc H.
  - simpl in H. exists "", s, caps. rewrite Nat.add_0_r. repeat split; auto. constructor.
  - simpl in H. destruct (Nat.eqb_spec i 0) as [->|]; [|discriminate].
    exists "", s, caps. repeat split; auto. constructor.
  - simpl in H. destruct s as [|a s']; [discriminate|].
    destruct (Ascii.eqb _ _) eqn:E; [|discriminate].
    exists (String a ""), s', caps. simpl. rewrite Nat.add_1_r.
    repeat split; auto. now constructor.
  - simpl in H. destruct s as [|a s']; [discriminate|].
    destruct (classMatches _ _ _) eqn:E; [|discriminate].
    exists (String a ""), s', caps. simpl. rewrite Nat.add_1_r.
    repeat split; auto. now constructor.
  - simpl in H. destruct G as [G1 G2]. apply IH1 in H; trivial.
    destruct H as (w1 & s1 & c1 & -> & L1 & C1 & K1).
    apply IH2 in K1; trivial.
    destruct K1 as (w2 & s2 & c2 & -> & L2 & C2 & K2).
    exists (w1 ++ w2), s2, c2.
    rewrite string_app_assoc, string_length_app, Nat.add_assoc.
    repeat split; auto. now constructor.
  - simpl in H. destruct G as [G1 G2]. destruct (matchR r1 i s caps k) eqn:E.
    + inversion H; subst. apply IH1 in E; trivial.
      destruct E as (w1 & s1 & c1 & -> & L1 & C1 & K1).
      exists w1, s1, c1. repeat split; auto. now apply L_AltL.
    + apply IH2 in H; trivial.
      destruct H as (w1 & s1 & c1 & -> & L1 & C1 & K1).
      exists w1, s1, c1. repeat split; auto. now apply L_AltR.
  - simpl in H. simpl in G.
    match type of H with match ?M with _ => _ end = _ => destruct M eqn:E end.
    + inversion H; subst. apply IH1 in E; trivial.
      destruct E as (w1 & s1 & c1 & -> & L1 & C1 & K1).
      destruct (Nat.eqb _ i); [discriminate|].
      exists w1, s1, c1. repeat split; auto. now apply L_OptSome.
    + exists "", s, caps. rewrite Nat.add_0_r. repeat split; auto. constructor.
  - rewrite matchR_Star_loop in H. simpl in G.
    eapply starLoop_sound; eauto.
  - simpl in H. destruct G as [Gn G1]. apply IH1 in H; trivial.
    destruct H as (w1 & s1 & c1 & -> & L1 & C1 & K1).
    replace (i + String.length w1 - i) with (String.length w1) in K1 by lia.
    rewrite substring0_app in K1.
    exists w1, s1, ((m, w1) :: c1). split; [reflexivity|]. split; [now constructor|].
    split; [|exact K1]. apply capsOK_cons; eauto.
Qed.

Lemma execHead_sound (P : nat -> string -> Prop) (r : regex) :
  groupsOK P r -> (forall i w, lang r i w -> P 0 w) ->
  forall s i m,
    matchR r i s [] (fun i' _ caps => Some ((0, substring 0 (i' - i) s) :: caps)) = Some m ->
    exists w post, s = w ++ post /\ lang r i w /\ capsOK P m.
Proof.
  intros G G0 s i m E.
  apply (matchR_sound P r G) in E; [|intros n v []].
  destruct E as (w & s' & c' & Hs & L & C & K). inversion K; subst.
  replace (i + String.length w - i) with (String.length w) by lia.
  rewrite substring0_app.
  exists w, s'. split; [reflexivity|]. split; [exact L|].
  apply capsOK_cons; eauto.
Qed.

(** A match of [s.match(r)] is a word of [r] somewhere in [s]. *)
Lemma execFrom_sound (P : nat -> string -> Prop) (r : regex) :
  groupsOK P r -> (forall i w, lang r i w -> P 0 w) ->
  forall s i m,
    execFrom r i s = Some m ->
    exists pre w post,
      s = pre ++ w ++ post /\ lang r (i + String.length pre) w /\ capsOK P m.
Proof.
  intros G G0. induction s as [|c s IH]; intros i m H; simpl in H.
  - match type of H with match ?M with _ => _ end = _ => destruct M eqn:E end;
      [|discriminate].
    inversion H; subst. apply (execHead_sound P r G G0) in E.
    destruct E as (w & post & Hs & L & C).
    exists "", w, post. simpl. rewrite Nat.add_0_r. auto.
  - match type of H with match ?M with _ => _ end = _ => destruct M eqn:E end.
    + inversion H; subst. apply (execHead_sound P r G G0) in E.
      destruct E as (w & post & Hs & L & C).
      exists "", w, post. simpl. rewrite Nat.add_0_r. auto.
    + apply IH in H. destruct H as (pre & w & post & -> & L & C).
      exists (String c pre), w, post. simpl.
      replace (i + S (String.length pre)) with (S i + String.length pre) by lia.
      repeat split; auto.
Qed.

Lemma groupsOK_any r : groupsOK anyWord r.
Proof. induction r; simpl; unfold anyWord; auto. Qed.

Lemma jsMatch_lang (s : string) (r : regex) (m : Captures) :
  jsMatch s r = Some m ->
  exists pre w post, s = pre ++ w ++ post /\ lang r (String.length pre) w.
Proof.
  intros H. apply (execFrom_sound anyWord r (groupsOK_any r)) in H; [|now unfold anyWord].
  destruct H as (pre & w & post & Hs & L & _). eauto.
Qed.

(** ** Words of the patterns *)

Lemma anyChar_app p (a b : string) : anyChar p (a ++ b) = anyChar p a || anyChar p b.
Proof. induction a as [|x a IH]; simpl; [reflexivity | now rewrite IH, orb_assoc]. Qed.

Lemma allChars_app p (a b : string) : allChars p (a ++ b) = allChars p a && allChars p b.
Proof. induction a as [|x a IH]; simpl; [reflexivity | now rewrite IH, andb_assoc]. Qed.

Lemma allChars_impl (p q : ascii -> bool) (s : string) :
  (forall c, p c = true -> q c = true) -> allChars p s = true -> allChars q s = true.
Proof.
  intros Hpq. induction s as [|c s IH]; simpl; [reflexivity|]. intros H.
  apply andb_true_iff in H. destruct H as [Hc Hs]. now rewrite (Hpq c Hc), IH.
Qed.

Lemma allChars_not_any p (s : string) :
  allChars (fun c => negb (p c)) s = true -> anyChar p s = false.
Proof.
  induction s as [|c s IH]; simpl; [reflexivity|]. intros H.
  apply andb_true_iff in H. destruct H as [Hc Hs].
  apply negb_true_iff in Hc. now rewrite Hc, IH.
Qed.

Lemma lang_seq_inv r1 r2 i w :
  lang (Seq r1 r2) i w ->
  exists w1 w2, w = w1 ++ w2 /\ lang r1 i w1 /\ lang r2 (i + String.length w1) w2.
Proof. intros H. inversion H; subst. eauto. Qed.

Lemma lang_alt_inv r1 r2 i w :
  lang (Alt r1 r2) i w -> lang r1 i w \/ lang r2 i w.
Proof. intros H. inversion H; subst; auto. Qed.

Lemma lang_needsDigit r i w :
  lang r i w -> needsDigit r = true -> anyChar isDigit w = true.
Proof.
  induction 1; simpl; intros D; try discriminate.
  - destruct negated; [discriminate|].
    destruct items as [|[| | |] [|]]; try discriminate.
    unfold classMatches in H. simpl in H. rewrite orb_false_r in H. now rewrite H.
  - rewrite anyChar_app. apply orb_true_iff in D. destruct D as [D|D].
    + now rewrite IHlang1.
    + rewrite IHlang2 by trivial. apply orb_true_r.
  - apply andb_true_iff in D. tauto.
  - apply andb_true_iff in D. tauto.
  - auto.
Qed.

Lemma lower_upper (a : ascii) : toLowerChar (toUpperChar a) = toLowerChar a.
Proof. destruct a as [[] [] [] [] [] [] [] []]; vm_compute; reflexivity. Qed.

Lemma upper_lower (a : ascii) : toUpperChar (toLowerChar a) = toUpperChar a.
Proof. destruct a as [[] [] [] [] [] [] [] []]; vm_compute; reflexivity. Qed.

Lemma lower_lower (a : ascii) : toLowerChar (toLowerChar a) = toLowerChar a.
Proof. destruct a as [[] [] [] [] [] [] [] []]; vm_compute; reflexivity. Qed.

Lemma lower_or_upper (a : ascii) : a = toLowerChar a \/ a = toUpperChar a.
Proof. destruct a as [[] [] [] [] [] [] [] []]; vm_compute; auto. Qed.

Lemma toLowerCase_idem (s : string) : toLowerCase (toLowerCase s) = toLowerCase s.
Proof. induction s as [|c s IH]; simpl; [reflexivity | now rewrite lower_lower, IH]. Qed.

Lemma canon_lower (a c : ascii) :
  Ascii.eqb (canonicalize a) (canonicalize c) = true -> toLowerChar a = toLowerChar c.
Proof.
  intros H. apply Ascii.eqb_eq in H. unfold canonicalize in H.
  now rewrite <- (lower_upper a), H, lower_upper.
Qed.

(** A word of a literal is the literal, up to letter case. *)
Lemma lang_lit kw : forall i w, lang (lit kw) i w -> toLowerCase w = toLowerCase kw.
Proof.
  induction kw as [|c kw IH]; intros i w H; simpl in H.
  - inversion H; subst. reflexivity.
  - inversion H; subst.
    match goal with Hc : lang (Chr _) _ _ |- _ => inversion Hc; subst end.
    simpl. f_equal; [now apply canon_lower | eauto].
Qed.

Lemma containsCI_embed (s pre w post kw : string) :
  s = pre ++ w ++ post -> containsCI w kw = true -> containsCI s kw = true.
Proof.
  intros -> H. unfold containsCI in *. apply includes_iff in H.
  destruct H as (a & b & H). apply includes_iff.
  exists (toLowerCase pre ++ a), (b ++ toLowerCase post).
  rewrite !toLowerCase_app, H, !string_app_assoc. reflexivity.
Qed.

Lemma containsCI_self (w kw : string) :
  toLowerCase w = kw -> containsCI w kw = true.
Proof.
  intros H. unfold containsCI. apply includes_iff. exists "", "". simpl.
  now rewrite string_app_nil_r.
Qed.

Lemma lang_workflowPattern1 i w :
  lang workflowPattern1 i w -> containsCI w "workflow" = true.
Proof.
  intros H. unfold workflowPattern1 in H. cbn [cat] in H.
  apply lang_seq_inv in H. destruct H as (w1 & w2 & -> & H1 & _).
  apply lang_lit in H1.
  apply (containsCI_embed _ "" w1 w2); [reflexivity|]. now apply containsCI_self.
Qed.

Lemma lang_workflowPattern2 i w :
  lang workflowPattern2 i w ->
  containsCI w "build" = true \/ containsCI w "workflow" = true.
Proof.
  intros H. unfold workflowPattern2 in H. cbn [cat] in H.
  apply lang_seq_inv in H. destruct H as (a1 & b1 & -> & _ & H).
  apply lang_seq_inv in H. destruct H as (a2 & b2 & -> & _ & H).
  apply lang_seq_inv in H. destruct H as (a3 & b3 & -> & _ & H).
  assert (E : a1 ++ a2 ++ a3 ++ b3 = (a1 ++ a2 ++ a3) ++ b3 ++ "").
  { now rewrite !string_app_assoc, string_app_nil_r. }
  apply lang_alt_inv in H. destruct H as [H|H]; apply lang_lit in H.
  - left. apply (containsCI_embed _ _ _ _ _ E). now apply containsCI_self.
  - right. apply (containsCI_embed _ _ _ _ _ E). now apply containsCI_self.
Qed.

Lemma lang_class_star neg items r i w :
  lang r i w -> r = Star (Class neg items) -> allChars (classMatches neg items) w = true.
Proof.
  induction 1; intros E; try discriminate.
  - reflexivity.
  - inversion E; subst. rewrite allChars_app.
    rewrite IHlang2 by reflexivity. rewrite andb_true_r.
    inversion H; subst. simpl.
    match goal with Hc : classMatches _ _ _ = true |- _ => now rewrite Hc end.
Qed.

Lemma lang_class_plus neg items i w :
  lang (Plus (Class neg items)) i w ->
  w <> "" /\ allChars (classMatches neg items) w = true.
Proof.
  intros H. unfold Plus in H. apply lang_seq_inv in H.
  destruct H as (w1 & w2 & -> & H1 & H2).
  inversion H1; subst. split; [discriminate|].
  simpl. match goal with Hc : classMatches _ _ _ = true |- _ => rewrite Hc end.
  simpl. eapply lang_class_star; eauto.
Qed.

Lemma notSeparator_class (c : ascii) :
  classMatches true [One "010"%char; One "013"%char; One ","%char] c = true ->
  negb (isSeparator c) = true.
Proof. destruct c as [[] [] [] [] [] [] [] []]; vm_compute; trivial. Qed.

Lemma groupsOK_workflowPattern1 : groupsOK workflowCaps workflowPattern1.
Proof.
  unfold workflowPattern1. cbn [cat groupsOK Plus lit]. repeat split.
  intros i w H _. apply lang_class_plus in H. destruct H as [_ H].
  apply allChars_not_any. eapply allChars_impl; [|exact H].
  intros c Hc. now apply notSeparator_class.
Qed.

(** ** [trim] *)

Lemma trimStart_starts (s : string) : startsWithSpace (trimStart s) = false.
Proof.
  induction s as [|c s IH]; simpl; [reflexivity|].
  destruct (isSpace c) eqn:E; [exact IH | simpl; exact E].
Qed.

Lemma trimEnd_starts (s : string) :
  startsWithSpace s = false -> startsWithSpace (trimEnd s) = false.
Proof.
  destruct s as [|c s]; simpl; [reflexivity|]. intros E.
  destruct (trimEnd s); [rewrite E|]; simpl; trivial.
Qed.

Lemma trimEnd_ends (s : string) : endsWithSpace (trimEnd s) = false.
Proof.
  induction s as [|c s IH]; simpl; [reflexivity|].
  destruct (trimEnd s) as [|d t] eqn:E.
  - destruct (isSpace c) eqn:Ec; simpl; trivial.
  - exact IH.
Qed.

Lemma trim_trimmed (s : string) :
  startsWithSpace (trim s) = false /\ endsWithSpace (trim s) = false.
Proof.
  unfold trim. split; [apply trimEnd_starts, trimStart_starts | apply trimEnd_ends].
Qed.

Lemma trimStart_allChars p (s : string) :
  allChars p s = true -> allChars p (trimStart s) = true.
Proof.
  induction s as [|c s IH]; simpl; [reflexivity|]. intros H.
  apply andb_true_iff in H. destruct H as [Hc Hs].
  destruct (isSpace c); [auto | simpl; now rewrite Hc, Hs].
Qed.

Lemma trimEnd_allChars p (s : string) :
  allChars p s = true -> allChars p (trimEnd s) = true.
Proof.
  induction s as [|c s IH]; simpl; [reflexivity|]. intros H.
  apply andb_true_iff in H. destruct H as [Hc Hs]. specialize (IH Hs).
  destruct (trimEnd s) as [|d t].
  - destruct (isSpace c); simpl; [reflexivity | now rewrite Hc].
  - simpl in *. now rewrite Hc, IH.
Qed.

Lemma anyChar_trim p (s : string) : anyChar p s = false -> anyChar p (trim s) = false.
Proof.
  intros H. apply allChars_not_any. unfold trim.
  apply trimEnd_allChars, trimStart_allChars.
  clear -H. induction s as [|c s IH]; simpl in *; [reflexivity|].
  apply orb_false_iff in H. destruct H as [Hc Hs]. now rewrite Hc, IH.
Qed.

(** ** The matcher on lower-cased input *)

Lemma isSpace_lower (a : ascii) : isSpace (toLowerChar a) = isSpace a.
Proof. destruct a as [[] [] [] [] [] [] [] []]; vm_compute; reflexivity. Qed.

Lemma isDigit_lower (a : ascii) : isDigit (toLowerChar a) = isDigit a.
Proof. destruct a as [[] [] [] [] [] [] [] []]; vm_compute; reflexivity. Qed.

Lemma digit_lower (a : ascii) : isDigit a = true -> toLowerChar a = a.
Proof. destruct a as [[] [] [] [] [] [] [] []]; vm_compute; trivial; discriminate. Qed.

Lemma itemMatches_lower (it : classItem) (a : ascii) :
  itemMatches it (toLowerChar a) = itemMatches it a.
Proof.
  destruct it as [c|lo hi| |]; simpl.
  - unfold canonicalize. now rewrite upper_lower.
  - rewrite upper_lower, lower_lower.
    destruct (lower_or_upper a) as [E|E]; rewrite E at 4;
      destruct (inRange (code lo) (code hi) (toLowerChar a)),
               (inRange (code lo) (code hi) (toUpperChar a)); reflexivity.
  - apply isSpace_lower.
  - apply isDigit_lower.
Qed.

Lemma classMatches_lower neg items (a : ascii) :
  classMatches neg items (toLowerChar a) = classMatches neg items a.
Proof.
  unfold classMatches. f_equal. induction items as [|it items IH]; simpl; [reflexivity|].
  now rewrite itemMatches_lower, IH.
Qed.

Lemma length_toLowerCase (s : string) : String.length (toLowerCase s) = String.length s.
Proof. induction s as [|c s IH]; simpl; [reflexivity | now rewrite IH]. Qed.

Lemma substring0_toLowerCase (n : nat) (s : string) :
  substring 0 n (toLowerCase s) = toLowerCase (substring 0 n s).
Proof.
  revert s; induction n as [|n IH]; intros [|c s]; simpl; trivial. now rewrite IH.
Qed.

Lemma starLoop_lower {A : Type} (r : regex)
  (IH : forall i s caps (k : nat -> string -> Captures -> option A),
      matchR r i (toLowerCase s) (lowerCaps caps) k = matchR r i s caps (lowerK k))
  (k : nat -> string -> Captures -> option A) :
  forall fuel i s caps,
    starLoop r k fuel i (toLowerCase s) (lowerCaps caps)
    = starLoop r (lowerK k) fuel i s caps.
Proof.
  induction fuel as [|fuel IHf]; intros i s caps; simpl; [reflexivity|].
  rewrite IH.
  rewrite (matchR_ext r i s caps _
             (fun i' s' caps' =>
                if Nat.eqb i' i then None else starLoop r (lowerK k) fuel i' s' caps')).
  - reflexivity.
  - intros i' s' c' _. unfold lowerK at 1.
    destruct (Nat.eqb i' i); [reflexivity | apply IHf].
Qed.

(** Under the [i] flag the matcher does on the lower-cased input what it
    does on the input, captures lower-cased. *)
Lemma matchR_lower {A : Type} (r : regex) :
  forall i s caps (k : nat -> string -> Captures -> option A),
    matchR r i (toLowerCase s) (lowerCaps caps) k = matchR r i s caps (lowerK k).
Proof.
  induction r as [| |c|neg items|r1 IH1 r2 IH2|r1 IH1 r2 IH2|r1 IH1|r1 IH1|m r1 IH1];
    intros i s caps k.
  - reflexivity.
  - reflexivity.
  - destruct s as [|a s']; simpl; [reflexivity|].
    unfold canonicalize. now rewrite upper_lower.
  - destruct s as [|a s']; simpl; [reflexivity|]. now rewrite classMatches_lower.
  - simpl. rewrite IH1. apply matchR_ext. intros i' s' c' _. unfold lowerK at 1. apply IH2.
  - simpl. now rewrite IH1, IH2.
  - simpl. rewrite IH1.
    rewrite (matchR_ext r1 i s caps _
               (fun i' s' caps' => if Nat.eqb i' i then None else lowerK k i' s' caps')).
    + reflexivity.
    + intros i' s' c' _. unfold lowerK at 1. now destruct (Nat.eqb i' i).
  - rewrite !matchR_Star_loop, length_toLowerCase. now apply starLoop_lower.
  - simpl. rewrite IH1. apply matchR_ext. intros i' s' c' _.
    unfold lowerK. simpl. now rewrite substring0_toLowerCase.
Qed.

Lemma starLoop_map {A B : Type} (f : A -> B) (r : regex)
  (IH : forall i s caps (k : nat -> string -> Captures -> option A),
      matchR r i s caps (fun i' s' c' => option_map f (k i' s' c'))
      = option_map f (matchR r i s caps k))
  (k : nat -> string -> Captures -> option A) :
  forall fuel i s caps,
    starLoop r (fun i' s' c' => option_map f (k i' s' c')) fuel i s caps
    = option_map f (starLoop r k fuel i s caps).
Proof.
  induction fuel as [|fuel IHf]; intros i s caps; simpl; [reflexivity|].
  rewrite (matchR_ext r i s caps _
             (fun i' s' c' =>
                option_map f (if Nat.eqb i' i then None else starLoop r k fuel i' s' c'))).
  - rewrite IH. now destruct (matchR r i s caps _).
  - intros i' s' c' _. destruct (Nat.eqb i' i); [reflexivity | apply IHf].
Qed.

(** Mapping the answers of the continuation maps the answer of the match. *)
Lemma matchR_map {A B : Type} (f : A -> B) (r : regex) :
  forall i s caps (k : nat -> string -> Captures -> option A),
    matchR r i s caps (fun i' s' c' => option_map f (k i' s' c'))
    = option_map f (matchR r i s caps k).
Proof.
  induction r as [| |c|neg items|r1 IH1 r2 IH2|r1 IH1 r2 IH2|r1 IH1|r1 IH1|m r1 IH1];
    intros i s caps k.
  - reflexivity.
  - simpl. now destruct (Nat.eqb i 0).
  - destruct s as [|a s']; simpl; [reflexivity|]. now destruct (Ascii.eqb _ _).
  - destruct s as [|a s']; simpl; [reflexivity|]. now destruct (classMatches _ _ _).
  - simpl. rewrite <- IH1. apply matchR_ext. intros i' s' c' _. apply IH2.
  - simpl. rewrite IH1, IH2. now destruct (matchR r1 i s caps k).
  - simpl.
    rewrite (matchR_ext r1 i s caps _
               (fun i' s' c' => option_map f (if Nat.eqb i' i then None else k i' s' c'))).
    + rewrite IH1. now destruct (matchR r1 i s caps _).
    + intros i' s' c' _. now destruct (Nat.eqb i' i).
  - rewrite !matchR_Star_loop. now apply starLoop_map.
  - simpl. rewrite <- IH1. reflexivity.
Qed.

Lemma execHead_lower (r : regex) (s : string) (i : nat) :
  matchR r i (toLowerCase s) []
    (fun i' _ caps => Some ((0, substring 0 (i' - i) (toLowerCase s)) :: caps))
  = option_map lowerCaps
      (matchR r i s [] (fun i' _ caps => Some ((0, substring 0 (i' - i) s) :: caps))).
Proof.
  change (@nil (nat * string)) with (lowerCaps []) at 1.
  rewrite matchR_lower, <- matchR_map. apply matchR_ext.
  intros i' s' c' _. unfold lowerK. simpl. now rewrite substring0_toLowerCase.
Qed.

Lemma execFrom_lower (r : regex) (s : string) :
  forall i, execFrom r i (toLowerCase s) = option_map lowerCaps (execFrom r i s).
Proof.
  induction s as [|c s IH]; intros i.
  - pose proof (execHead_lower r "" i) as E.
    change (toLowerCase "") with "" in *. cbn [execFrom]. rewrite E at 1.
    match type of E with ?M = _ => destruct M end; reflexivity.
  - pose proof (execHead_lower r (String c s) i) as E.
    cbn [toLowerCase] in *. cbn [execFrom]. rewrite E.
    match goal with |- context [option_map lowerCaps ?M] => destruct M end;
      [reflexivity | apply IH].
Qed.

Lemma firstMatch_lower (ps : list regex) (s : string) :
  firstMatch ps (toLowerCase s) = option_map lowerCaps (firstMatch ps s).
Proof.
  induction ps as [|p ps IH]; simpl; [reflexivity|].
  unfold jsMatch. rewrite execFrom_lower.
  destruct (execFrom p 0 s); [reflexivity | exact IH].
Qed.

Lemma group_lowerCaps (n : nat) (m : Captures) :
  group n (lowerCaps m) = option_map toLowerCase (group n m).
Proof.
  induction m as [|[k v] m IH]; simpl; [reflexivity|].
  now destruct (Nat.eqb k n).
Qed.

Lemma digitsValue_lower (s : string) :
  forall acc, digitsValue acc (toLowerCase s) = digitsValue acc s.
Proof.
  induction s as [|c s IH]; intros acc; simpl; [reflexivity|].
  rewrite isDigit_lower. destruct (isDigit c) eqn:E; [|reflexivity].
  now rewrite (digit_lower c E), IH.
Qed.

Lemma parseInt_lower (g : option string) :
  parseInt (option_map toLowerCase g) = parseInt g.
Proof.
  destruct g as [[|c s]|]; simpl; trivial.
  rewrite isDigit_lower. destruct (isDigit c) eqn:E; [|reflexivity].
  now rewrite (digit_lower c E), digitsValue_lower.
Qed.

Lemma durationOfMatch_lower (m : Captures) :
  durationOfMatch (lowerCaps m) = durationOfMatch m.
Proof.
  unfold durationOfMatch. now rewrite !group_lowerCaps, !parseInt_lower.
Qed.

Lemma extractDuration_lowered (text : string) (atts : option (list Attachment)) :
  extractDuration text atts
  = option_map durationOfMatch
      (firstMatch durationPatterns (toLowerCase (allText text atts))).
Proof.
  unfold extractDuration. rewrite firstMatch_lower.
  destruct (firstMatch durationPatterns (allText text atts)); simpl; [|reflexivity].
  now rewrite durationOfMatch_lower.
Qed.

(** ** The extractors, beyond the examples *)

Lemma chain_monotone (g1 g2 g3 g4 h1 h2 h3 h4 : bool) :
  (g1 = true -> h1 = true) -> (g2 = true -> h2 = true) ->
  (g3 = true -> h3 = true) -> (g4 = true -> h4 = true) ->
  precedence (if h1 then succeeded else if h2 then failed
              else if h3 then running else if h4 then cancelled else unknown)
  <= precedence (if g1 then succeeded else if g2 then failed
                 else if g3 then running else if g4 then cancelled else unknown).
Proof.
  intros H1 H2 H3 H4.
  destruct g1, g2, g3, g4, h1, h2, h3, h4; simpl; try lia;
    solve [ discriminate (H1 eq_refl) | discriminate (H2 eq_refl)
          | discriminate (H3 eq_refl) | discriminate (H4 eq_refl) ].
Qed.

Lemma includes_embed (t pre post kw : string) :
  includes (toLowerCase t) kw = true ->
  includes (toLowerCase (pre ++ t ++ post)) kw = true.
Proof.
  intros H. apply (containsCI_embed (pre ++ t ++ post) pre t post kw eq_refl H).
Qed.

Lemma either_embed (t pre post k1 k2 : string) :
  includes (toLowerCase t) k1 || includes (toLowerCase t) k2 = true ->
  includes (toLowerCase (pre ++ t ++ post)) k1
  || includes (toLowerCase (pre ++ t ++ post)) k2 = true.
Proof.
  intros H. apply orb_true_iff in H. apply orb_true_iff.
  destruct H as [H|H]; [left | right]; now apply includes_embed.
Qed.

(** X1. The status depends on the body text up to letter case only, and
    putting text before or after a body text never moves its status down
    the chain succeeded, failed, running, cancelled, unknown: whatever a
    text classifies as, every text containing it classifies as that or as
    something earlier in the chain. *)
Theorem classifyStatus_monotone :
  (forall t1 t2, toLowerCase t1 = toLowerCase t2 -> classifyStatus t1 = classifyStatus t2)
  /\ (forall pre t post,
        precedence (classifyStatus (pre ++ t ++ post)) <= precedence (classifyStatus t)).
Proof.
  split.
  - intros t1 t2 H. unfold classifyStatus. now rewrite H.
  - intros pre t post. unfold classifyStatus.
    apply chain_monotone; apply either_embed.
Qed.

Lemma classifyStatus_monotone_witness :
  classifyStatus "BUILD Failed" = classifyStatus "build failed".
Proof. apply (proj1 classifyStatus_monotone). reflexivity. Defined.

(** X2. A combined text (body, attachment titles and texts) without any
    digit has no duration: every duration pattern runs through a [\d]. *)
Theorem extractDuration_needs_digit (text : string) (atts : option (list Attachment)) :
  anyChar isDigit (allText text atts) = false -> extractDuration text atts = None.
Proof.
  intros H. unfold extractDuration. rewrite firstMatch_none; [reflexivity|].
  intros q Hq. destruct (jsMatch (allText text atts) q) as [m|] eqn:E; [|reflexivity].
  apply jsMatch_lang in E. destruct E as (pre & w & post & Hs & L).
  apply lang_needsDigit in L.
  - rewrite Hs, !anyChar_app, L, orb_true_r in H. discriminate.
  - simpl in Hq. repeat (destruct Hq as [<-|Hq]; [reflexivity|]). contradiction.
Qed.

Lemma extractDuration_needs_digit_witness :
  extractDuration "Build took a few minutes"
    (Some [mkAttachment (Some "Nutri-E") (Some "completed in no time") None]) = None.
Proof. apply extractDuration_needs_digit. reflexivity. Defined.

Lemma lower_asciiLower (a : ascii) : toLowerChar (asciiLowerChar a) = toLowerChar a.
Proof. destruct a as [[] [] [] [] [] [] [] []]; vm_compute; reflexivity. Qed.

Lemma toLowerCase_asciiLowerCase (s : string) :
  toLowerCase (asciiLowerCase s) = toLowerCase s.
Proof.
  induction s as [|c s IH]; simpl; [reflexivity | now rewrite lower_asciiLower, IH].
Qed.

(** X3. Duration extraction ignores the case of the letters A to Z: two
    messages whose combined texts are equal once A to Z are replaced by a to
    z get the same duration. *)
Theorem extractDuration_ignores_case (t1 t2 : string)
  (a1 a2 : option (list Attachment)) :
  asciiLowerCase (allText t1 a1) = asciiLowerCase (allText t2 a2) ->
  extractDuration t1 a1 = extractDuration t2 a2.
Proof.
  intros H. rewrite !extractDuration_lowered.
  rewrite <- (toLowerCase_asciiLowerCase (allText t1 a1)), H.
  now rewrite toLowerCase_asciiLowerCase.
Qed.

Lemma extractDuration_ignores_case_witness :
  extractDuration "Build TOOK 3 MIN 20 SEC" None
  = extractDuration "build took 3 min 20 sec" None
  /\ extractDuration "Build TOOK 3 MIN 20 SEC" None
     = Some (mkDuration 3 20 200 "3m 20s").
Proof.
  split; [|reflexivity].
  apply extractDuration_ignores_case. reflexivity.
Defined.

(** X4. A workflow name that comes from one of the two patterns is
    trimmed: it neither starts nor ends with white space (it can be
    empty). *)
Theorem extractWorkflow_trimmed (text : string) (atts : option (list Attachment))
  (m : Captures) :
  firstMatch workflowPatterns (allText text atts) = Some m ->
  exists w,
    extractWorkflow text atts = Ok (Some w)
    /\ startsWithSpace w = false /\ endsWithSpace w = false.
Proof.
  intros H. unfold extractWorkflow. rewrite H.
  apply (firstMatch_captures 1) in H; [|reflexivity].
  unfold has in H. destruct (group 1 m) as [g|]; [|congruence].
  exists (trim g). split; [reflexivity | apply trim_trimmed].
Qed.

Lemma extractWorkflow_trimmed_witness :
  exists w,
    extractWorkflow "Workflow:    " None = Ok (Some w)
    /\ startsWithSpace w = false /\ endsWithSpace w = false.
Proof.
  eapply extractWorkflow_trimmed. vm_compute. reflexivity.
Defined.

(** X5. A workflow name that comes from the first pattern
    ("workflow: name") holds no comma, line feed or carriage return. *)
Theorem extractWorkflow_stops_at_separator (text : string)
  (atts : option (list Attachment)) (m : Captures) :
  jsMatch (allText text atts) workflowPattern1 = Some m ->
  exists w,
    extractWorkflow text atts = Ok (Some w)
    /\ anyChar isSeparator w = false.
Proof.
  intros H. unfold extractWorkflow, workflowPatterns. cbn [firstMatch]. rewrite H.
  pose proof (execFrom_captures 1 workflowPattern1 _ eq_refl 0 m H) as Hh.
  apply (execFrom_sound workflowCaps _ groupsOK_workflowPattern1) in H;
    [|intros i w _ E; discriminate].
  destruct H as (_ & _ & _ & _ & _ & C).
  destruct (group 1 m) as [g|] eqn:E; [|now unfold has in Hh].
  exists (trim g). split; [reflexivity|].
  apply anyChar_trim. now apply (capsOK_group _ _ _ _ C E).
Qed.

Lemma extractWorkflow_stops_at_separator_witness :
  exists w,
    extractWorkflow "Workflow: Nutri-E, branch main" None = Ok (Some w)
    /\ anyChar isSeparator w = false.
Proof.
  eapply extractWorkflow_stops_at_separator. vm_compute. reflexivity.
Defined.

(** X6. When the combined text mentions neither "workflow" nor "build"
    (letter case ignored), no pattern can match and the workflow is the
    title of the first attachment if that title has 1 to 49 characters,
    taken as it is; otherwise it is absent. *)
Theorem extractWorkflow_without_keyword (text : string)
  (atts : option (list Attachment)) :
  containsCI (allText text atts) "workflow" = false ->
  containsCI (allText text atts) "build" = false ->
  exists w,
    extractWorkflow text atts = Ok w
    /\ forall t,
         w = Some t <->
         exists a rest,
           atts = Some (a :: rest) /\ title a = Some t
           /\ 1 <= String.length t <= 49.
Proof.
  intros Hw Hb. exists (titleFallback atts). split.
  - unfold extractWorkflow. rewrite firstMatch_none; [reflexivity|].
    intros q Hq. destruct (jsMatch (allText text atts) q) as [m|] eqn:E; [|reflexivity].
    apply jsMatch_lang in E. destruct E as (pre & w & post & Hs & L).
    destruct Hq as [<-|[<-|[]]].
    + apply lang_workflowPattern1 in L.
      rewrite (containsCI_embed _ _ _ _ _ Hs L) in Hw. discriminate.
    + apply lang_workflowPattern2 in L. destruct L as [L|L].
      * rewrite (containsCI_embed _ _ _ _ _ Hs L) in Hb. discriminate.
      * rewrite (containsCI_embed _ _ _ _ _ Hs L) in Hw. discriminate.
  - intros t. unfold titleFallback. split.
    + destruct atts as [[|a rest]|]; try discriminate.
      destruct (title a) as [t'|] eqn:Et; [|discriminate].
      destruct (Nat.ltb_spec 0 (String.length t')); simpl; [|discriminate].
      destruct (Nat.ltb_spec (String.length t') 50); [|discriminate].
      intros E. inversion E; subst. exists a, rest.
      split; [reflexivity|]. split; [exact Et|]. lia.
    + intros (a & rest & -> & Et & Hlen). rewrite Et.
      destruct (Nat.ltb_spec 0 (String.length t)); [|lia]. simpl.
      destruct (Nat.ltb_spec (String.length t) 50); [reflexivity | lia].
Qed.

Lemma extractWorkflow_without_keyword_witness :
  exists w,
    extractWorkflow "Tests passed"
      (Some [mkAttachment (Some "  Nutri-E  ") (Some "all green") None]) = Ok w
    /\ w = Some "  Nutri-E  ".
Proof.
  destruct (extractWorkflow_without_keyword "Tests passed"
              (Some [mkAttachment (Some "  Nutri-E  ") (Some "all green") None])
              eq_refl eq_refl) as (w & Hw & Ht).
  exists w. split; [exact Hw|]. apply Ht.
  eexists _, _. split; [reflexivity|]. split; [reflexivity|]. simpl. lia.
Defined.

(** ** check_build_status, beyond the filter *)

Lemma truncatedTo_substring n (o : option string) :
  truncatedTo n o (option_map (substring 0 n) o).
Proof.
  destruct o as [t|]; simpl; [|reflexivity].
  destruct (substring0_prefix n t) as [rest H].
  exists (substring 0 n t), rest. repeat split; trivial.
  rewrite length_substring0. apply Nat.le_min_l.
Qed.

Lemma mapM_Forall2 {A B : Type} (f : A -> Result B) (R : A -> B -> Prop) (xs : list A) :
  (forall x, In x xs -> exists y, f x = Ok y /\ R x y) ->
  exists ys, mapM f xs = Ok ys /\ Forall2 R xs ys.
Proof.
  induction xs as [|x xs IH]; intros H; simpl.
  - exists []. split; [reflexivity | constructor].
  - destruct (H x (or_introl eq_refl)) as (y & Hy & Ry).
    destruct IH as (ys & Hys & Rys); [intros x' Hx'; apply H; now right|].
    exists (y :: ys). rewrite Hy, Hys. split; [reflexivity | now constructor].
Qed.

Lemma mapM_throws {A B : Type} (f : A -> Result B) (e : SlackError) (xs : list A) :
  (forall x e', f x = Throw e' -> e' = e) ->
  (exists x, In x xs /\ f x = Throw e) ->
  mapM f xs = Throw e.
Proof.
  intros Hone. induction xs as [|x xs IH]; intros (x0 & Hin & Hx0); [contradiction|].
  simpl. destruct (f x) as [y|e'] eqn:E.
  - destruct Hin as [->|Hin]; [congruence|].
    cbn [bind]. rewrite IH by eauto. reflexivity.
  - cbn [bind]. now rewrite (Hone x e' E).
Qed.

Lemma In_firstn {A : Type} (n : nat) (xs : list A) (x : A) :
  In x (firstn n xs) -> In x xs.
Proof.
  revert xs; induction n as [|n IH]; intros [|y xs]; simpl; try tauto.
  intros [->|H]; [now left | right; now apply IH].
Qed.

Lemma sliceTo_incl {A : Type} (e : Z) (xs : list A) (x : A) :
  In x (sliceTo e xs) -> In x xs.
Proof. unfold sliceTo. apply In_firstn. Qed.

Lemma map_firstn {A B : Type} (f : A -> B) (n : nat) (xs : list A) :
  map f (firstn n xs) = firstn n (map f xs).
Proof.
  revert xs; induction n as [|n IH]; intros [|x xs]; simpl; trivial. now rewrite IH.
Qed.

Ltac enter tool :=
  unfold callTool, dispatch; cbn [name arguments String.eqb Ascii.eqb Bool.eqb];
  unfold tool.



(** X8. A limit that is a negative integer l is not rejected: after the
    filter (if any) the handler drops the last |l| entries and returns what
    is left. *)
Theorem filterAndLimit_negative_limit (args : option Args) (bs : list ParsedBuild)
  (l : Z) :
  argOf arg_limit args = Some l -> (l < 0)%Z ->
  let kept :=
    if truthy (argOf arg_workflow args)
    then List.filter (matchesFilter (toLowerCase (orEmpty (argOf arg_workflow args)))) bs
    else bs in
  filterAndLimit args bs = firstn (List.length kept - Z.to_nat (- l)) kept.
Proof.
  intros Hl Hneg kept. unfold filterAndLimit. rewrite truthy_workflowFilter.
  assert (E : (if truthy (argOf arg_workflow args)
               then List.filter (matchesFilter (orEmpty (workflowFilterOf args))) bs
               else bs) = kept).
  { unfold kept, workflowFilterOf. now destruct (argOf arg_workflow args). }
  rewrite E. unfold resultLimit, sliceTo. rewrite Hl.
  unfold limitOr. destruct (Z.eqb_spec l 0); [lia|].
  rewrite Z.min_l by lia. destruct (Z.ltb_spec l 0); [|lia].
  f_equal. lia.
Qed.

Lemma filterAndLimit_negative_limit_witness :
  let build := fun t => mkBuild "2023-11-14T22:13:20.123Z" unknown None None t None in
  filterAndLimit (Some (mkArgs (Some (-2)%Z) None None None None))
    [build "one"; build "two"; build "three"]
  = [build "one"].
Proof.
  intros build.
  apply (filterAndLimit_negative_limit
           (Some (mkArgs (Some (-2)%Z) None None None None))
           [build "one"; build "two"; build "three"] (-2)%Z);
    [reflexivity | lia].
Defined.

(** X9. Whenever check_build_status answers with builds, the count is the
    number of builds, the filter field echoes the workflow argument exactly
    when a filter was applied, every build passes the filter if there is
    one, and with a limit that is not negative there are at most 20
    builds. *)
Theorem builds_payload_invariant isoOfTs env args bs f c :
  callTool isoOfTs env (mkRequest "check_build_status" args)
  = json (BuildsPayload bs f c) ->
  c = List.length bs
  /\ f = (if truthy (argOf arg_workflow args) then argOf arg_workflow args else None)
  /\ ((0 <= limitOr (argOf arg_limit args) 5)%Z -> List.length bs <= 20)
  /\ (truthy (argOf arg_workflow args) = true ->
      forall b, In b bs ->
        matchesFilter (toLowerCase (orEmpty (argOf arg_workflow args))) b = true).
Proof.
  enter check_build_status.
  destruct (buildChannelId env) as [[|c0 cs]|]; try discriminate.
  destruct (slack_conversations_history _ _ _) as [r|e]; [|discriminate]. cbn [bind].
  destruct (messages r) as [[|m0 ms]|]; try discriminate.
  destruct (mapM _ _) as [parsed|e]; [|discriminate]. cbn [bind].
  rewrite truthy_workflowFilter. intros H. inversion H; subst. clear H.
  split; [reflexivity|]. split; [reflexivity|]. split.
  - intros Hl. unfold filterAndLimit, resultLimit.
    rewrite sliceTo_nonneg by lia. rewrite length_firstn. lia.
  - intros Hw b Hb. unfold filterAndLimit in Hb. apply sliceTo_incl in Hb.
    rewrite truthy_workflowFilter, Hw in Hb. apply filter_In in Hb.
    destruct Hb as [_ Hb]. unfold workflowFilterOf in Hb.
    now destruct (argOf arg_workflow args).
Qed.

Lemma builds_payload_invariant_witness :
  1 = List.length
        [mkBuild "2023-11-14T22:13:20.123Z" failed (Some "Nutri-E") None
           "Nutri-E build failed" None].
Proof.
  apply (builds_payload_invariant sampleClock
           (historyEnv (Ok (mkHistory (Some [sampleMessage "Nutri-E build failed";
                                             sampleMessage "Cuti-E build succeeded"]))))
           (Some (mkArgs None (Some "NUTRI") None None None))
           _ (Some "NUTRI") 1).
  vm_compute. reflexivity.
Defined.

(** X10. An empty history is answered differently by the two history
    tools: check_build_status returns the text "No build messages found in
    the channel." (no builds payload), get_channel_messages returns a
    messages payload with an empty list. *)
Theorem empty_history_answers isoOfTs env args ch r :
  messagesOf r = [] ->
  (buildChannelId env = Some ch -> ch <> "" ->
   slack_conversations_history (slack env) ch (fetchLimit args) = Ok r ->
   callTool isoOfTs env (mkRequest "check_build_status" args)
   = plain "No build messages found in the channel.")
  /\ (orElse (argOf arg_channel_id args) (buildChannelId env) = Some ch -> ch <> "" ->
      slack_conversations_history (slack env) ch
        (Z.min (limitOr (argOf arg_limit args) 10) 100) = Ok r ->
      callTool isoOfTs env (mkRequest "get_channel_messages" args)
      = json (MessagesPayload [])).
Proof.
  intros Hr. unfold messagesOf in Hr. split.
  - intros Hch Hne Hh. enter check_build_status. rewrite Hch.
    destruct ch as [|c0 cs]; [congruence|]. rewrite Hh. cbn [bind].
    destruct (messages r) as [[|m0 ms]|]; try reflexivity; discriminate.
  - intros Hch Hne Hh. enter get_channel_messages. rewrite Hch.
    destruct ch as [|c0 cs]; [congruence|]. rewrite Hh. cbn [bind].
    destruct (messages r) as [l|]; [subst l|]; reflexivity.
Qed.

Lemma empty_history_answers_witness :
  callTool sampleClock (historyEnv (Ok (mkHistory None)))
    (mkRequest "check_build_status" None)
  = plain "No build messages found in the channel."
  /\ callTool sampleClock (historyEnv (Ok (mkHistory None)))
       (mkRequest "get_channel_messages" None)
     = json (MessagesPayload []).
Proof.
  split.
  - apply (proj1 (empty_history_answers sampleClock (historyEnv (Ok (mkHistory None)))
                    None "C0BUILDS" (mkHistory None) eq_refl));
      [reflexivity | discriminate | reflexivity].
  - apply (proj2 (empty_history_answers sampleClock (historyEnv (Ok (mkHistory None)))
                    None "C0BUILDS" (mkHistory None) eq_refl));
      [reflexivity | discriminate | reflexivity].
Defined.

(** ** The other tools *)

(** X11. get_channel_messages reads the channel given as channel_id, or
    the build channel when none is given, asks for min(limit or 10, 100)
    messages, and returns one entry per message in order: the converted
    timestamp, user and bot_id as they came, and the text cut to at most
    500 characters (absent when the message has none). *)
Theorem get_channel_messages_shape isoOfTs env args ch r :
  orElse (argOf arg_channel_id args) (buildChannelId env) = Some ch -> ch <> "" ->
  slack_conversations_history (slack env) ch
    (Z.min (limitOr (argOf arg_limit args) 10) 100) = Ok r ->
  (forall m, In m (messagesOf r) -> isoOfTs (ts m) <> None) ->
  exists out,
    callTool isoOfTs env (mkRequest "get_channel_messages" args)
    = json (MessagesPayload out)
    /\ Forall2
         (fun m o =>
            isoOfTs (ts m) = Some (m_timestamp o)
            /\ m_user o = user m /\ m_bot_id o = bot_id m
            /\ truncatedTo 500 (text m) (m_text o))
         (messagesOf r) out.
Proof.
  intros Hch Hne Hh Hts.
  destruct (mapM_Forall2 (channelMessage isoOfTs)
              (fun m o =>
                 isoOfTs (ts m) = Some (m_timestamp o)
                 /\ m_user o = user m /\ m_bot_id o = bot_id m
                 /\ truncatedTo 500 (text m) (m_text o))
              (messagesOf r)) as (out & Hout & HR).
  { intros m Hm. unfold channelMessage, toISOString.
    destruct (isoOfTs (ts m)) as [iso|] eqn:E; [|now apply Hts in Hm].
    eexists. split; [reflexivity|]. simpl. repeat split. apply truncatedTo_substring. }
  exists out. split; [|exact HR].
  enter get_channel_messages. rewrite Hch. destruct ch as [|c0 cs]; [congruence|].
  rewrite Hh. cbn [bind]. unfold messagesOf in Hout. rewrite Hout. reflexivity.
Qed.

Lemma get_channel_messages_shape_witness :
  exists out,
    callTool sampleClock
      (historyEnv (Ok (mkHistory (Some [sampleMessage "Nutri-E build failed"]))))
      (mkRequest "get_channel_messages"
         (Some (mkArgs (Some 500%Z) None (Some "C0OTHER") None None)))
    = json (MessagesPayload out).
Proof.
  destruct (get_channel_messages_shape sampleClock
              (historyEnv (Ok (mkHistory (Some [sampleMessage "Nutri-E build failed"]))))
              (Some (mkArgs (Some 500%Z) None (Some "C0OTHER") None None))
              "C0OTHER" (mkHistory (Some [sampleMessage "Nutri-E build failed"])))
    as (out & H & _).
  - reflexivity.
  - discriminate.
  - reflexivity.
  - intros m [<-|[]]. vm_compute. discriminate.
  - exists out. exact H.
Defined.

(** X12. search_messages passes the query on with a count of
    min(limit or 10, 100) and returns one result per match in order: the
    converted timestamp, channel name and user as they came, the text cut
    to at most 500 characters; the total is the reported total, or 0 when
    none is reported. *)
Theorem search_messages_shape isoOfTs env args q r :
  argOf arg_query args = Some q -> q <> "" ->
  slack_search_messages (slack env) q
    (Z.min (limitOr (argOf arg_limit args) 10) 100) = Ok r ->
  (forall m, In m (matchesOf r) -> isoOfTs (sm_ts m) <> None) ->
  exists hits,
    callTool isoOfTs env (mkRequest "search_messages" args)
    = json (SearchPayload hits
              (match sr_messages r with
               | Some sm => match total sm with
                            | Some n => n
                            | None => 0%Z
                            end
               | None => 0%Z
               end))
    /\ Forall2
         (fun m h =>
            isoOfTs (sm_ts m) = Some (h_timestamp h)
            /\ h_channel h = sm_channel m /\ h_user h = sm_user m
            /\ truncatedTo 500 (sm_text m) (h_text h))
         (matchesOf r) hits.
Proof.
  intros Hq Hne Hs Hts.
  destruct (mapM_Forall2 (searchHit isoOfTs)
              (fun m h =>
                 isoOfTs (sm_ts m) = Some (h_timestamp h)
                 /\ h_channel h = sm_channel m /\ h_user h = sm_user m
                 /\ truncatedTo 500 (sm_text m) (h_text h))
              (matchesOf r)) as (hits & Hhits & HR).
  { intros m Hm. unfold searchHit, toISOString.
    destruct (isoOfTs (sm_ts m)) as [iso|] eqn:E; [|now apply Hts in Hm].
    eexists. split; [reflexivity|]. simpl. repeat split. apply truncatedTo_substring. }
  exists hits. split; [|exact HR].
  enter search_messages. rewrite Hq. destruct q as [|c0 cs]; [congruence|].
  unfold searchBody. rewrite Hs. cbn [bind]. unfold matchesOf in Hhits.
  rewrite Hhits. cbn [bind]. unfold json. do 3 f_equal.
  destruct (sr_messages r) as [sm|]; [|reflexivity].
  unfold limitOr. destruct (total sm) as [n|]; [|reflexivity].
  destruct (Z.eqb_spec n 0); congruence.
Qed.

Lemma search_messages_shape_witness :
  let found :=
    mkSearch (Some (mkSearchMessages
                      (Some [mkMatch "1700000000.123456" (Some "builds")
                               (Some "Nutri-E build failed") (Some "U0BOT")])
                      None)) in
  exists hits,
    callTool sampleClock
      (mkEnv None (constSlack (Throw rangeError) (Ok found)
                     (Throw rangeError) (Throw rangeError)))
      (mkRequest "search_messages"
         (Some (mkArgs (Some 1000%Z) None None (Some "build failed") None)))
    = json (SearchPayload hits 0).
Proof.
  intros found.
  destruct (search_messages_shape sampleClock
              (mkEnv None (constSlack (Throw rangeError) (Ok found)
                             (Throw rangeError) (Throw rangeError)))
              (Some (mkArgs (Some 1000%Z) None None (Some "build failed") None))
              "build failed" found) as (hits & H & _).
  - reflexivity.
  - discriminate.
  - reflexivity.
  - intros m [<-|[]]. vm_compute. discriminate.
  - exists hits. exact H.
Defined.

(** X13. list_channels needs no configured channel: it asks for
    min(limit or 50, 200) channels and returns one entry per channel in
    order, with id, name, is_private and is_member as they came and the
    topic cut to at most 100 characters. *)
Theorem list_channels_shape isoOfTs env args r :
  slack_conversations_list (slack env)
    (Z.min (limitOr (argOf arg_limit args) 50) 200) = Ok r ->
  exists out,
    callTool isoOfTs env (mkRequest "list_channels" args) = json (ChannelsPayload out)
    /\ Forall2
         (fun ch o =>
            ch_id o = ch_id ch /\ ch_name o = ch_name ch
            /\ ch_is_private o = ch_is_private ch /\ ch_is_member o = ch_is_member ch
            /\ truncatedTo 100 (ch_topic ch) (ch_topic o))
         (match channels r with Some l => l | None => [] end) out.
Proof.
  intros Hl. eexists. split.
  - enter list_channels. rewrite Hl. reflexivity.
  - generalize (match channels r with Some l => l | None => [] end).
    induction l as [|ch l IH]; simpl; constructor; trivial.
    simpl. repeat split. apply truncatedTo_substring.
Qed.

Lemma list_channels_shape_witness :
  let listed :=
    mkChannels (Some [mkChannel (Some "C0BUILDS") (Some "builds") (Some false)
                        (Some true) (Some "Xcode Cloud notifications")]) in
  exists out,
    callTool sampleClock
      (mkEnv None (constSlack (Throw rangeError) (Throw rangeError)
                     (Throw rangeError) (Ok listed)))
      (mkRequest "list_channels" None)
    = json (ChannelsPayload out).
Proof.
  intros listed.
  destruct (list_channels_shape sampleClock
              (mkEnv None (constSlack (Throw rangeError) (Throw rangeError)
                             (Throw rangeError) (Ok listed)))
              None listed eq_refl) as (out & H & _).
  exists out. exact H.
Defined.

(** X14. send_message posts the text as given to the channel_id of the
    request when there is one, else to the build channel, and answers with
    the ok flag, timestamp and channel of the post. *)
Theorem send_message_delivery isoOfTs env args t r :
  argOf arg_text args = Some t -> t <> "" ->
  (forall c,
     argOf arg_channel_id args = Some c -> c <> "" ->
     slack_chat_postMessage (slack env) c t = Ok r ->
     callTool isoOfTs env (mkRequest "send_message" args)
     = json (SentPayload (ok r) (post_ts r) (post_channel r)))
  /\ (forall b,
        truthy (argOf arg_channel_id args) = false ->
        buildChannelId env = Some b -> b <> "" ->
        slack_chat_postMessage (slack env) b t = Ok r ->
        callTool isoOfTs env (mkRequest "send_message" args)
        = json (SentPayload (ok r) (post_ts r) (post_channel r))).
Proof.
  intros Ht Hne. split.
  - intros c Hc Hcne Hp. enter send_message. unfold orElse. rewrite Hc.
    destruct c as [|c0 cs]; [congruence|]. simpl truthy. cbn iota.
    rewrite Ht. destruct t as [|t0 t']; [congruence|]. now rewrite Hp.
  - intros b Hc Hb Hbne Hp. enter send_message. unfold orElse. rewrite Hc, Hb.
    destruct b as [|b0 bs]; [congruence|].
    rewrite Ht. destruct t as [|t0 t']; [congruence|]. now rewrite Hp.
Qed.

Lemma send_message_delivery_witness :
  let posted := mkPost true (Some "1700000000.123456") (Some "C0OTHER") in
  let client :=
    mkSlack (fun _ _ => Throw rangeError) (fun _ _ => Throw rangeError)
      (fun c _ => if String.eqb c "C0OTHER" then Ok posted else Throw rangeError)
      (fun _ => Throw rangeError) in
  callTool sampleClock (mkEnv (Some "C0BUILDS") client)
    (mkRequest "send_message"
       (Some (mkArgs None None (Some "C0OTHER") None (Some "Build is green"))))
  = json (SentPayload true (Some "1700000000.123456") (Some "C0OTHER")).
Proof.
  intros posted client.
  apply (proj1 (send_message_delivery sampleClock (mkEnv (Some "C0BUILDS") client)
                  (Some (mkArgs None None (Some "C0OTHER") None (Some "Build is green")))
                  "Build is green" posted eq_refl ltac:(discriminate))
           "C0OTHER");
    [reflexivity | discriminate | reflexivity].
Defined.

Lemma channelMessage_throws isoOfTs m e :
  channelMessage isoOfTs m = Throw e -> e = rangeError.
Proof.
  unfold channelMessage, toISOString. destruct (isoOfTs (ts m)); simpl; congruence.
Qed.

Lemma searchHit_throws isoOfTs m e :
  searchHit isoOfTs m = Throw e -> e = rangeError.
Proof.
  unfold searchHit, toISOString. destruct (isoOfTs (sm_ts m)); simpl; congruence.
Qed.

(** X15. In get_channel_messages and in search_messages one message whose
    timestamp [Date] rejects fails the whole call: the answer is the error
    envelope "Slack API error: Invalid time value", not the other
    messages (the inner catch of search_messages rethrows it). *)
Theorem invalid_timestamp_fails_call isoOfTs env args :
  (forall ch r m,
     orElse (argOf arg_channel_id args) (buildChannelId env) = Some ch -> ch <> "" ->
     slack_conversations_history (slack env) ch
       (Z.min (limitOr (argOf arg_limit args) 10) 100) = Ok r ->
     In m (messagesOf r) -> isoOfTs (ts m) = None ->
     callTool isoOfTs env (mkRequest "get_channel_messages" args) = caught rangeError)
  /\ (forall q r m,
        argOf arg_query args = Some q -> q <> "" ->
        slack_search_messages (slack env) q
          (Z.min (limitOr (argOf arg_limit args) 10) 100) = Ok r ->
        In m (matchesOf r) -> isoOfTs (sm_ts m) = None ->
        callTool isoOfTs env (mkRequest "search_messages" args) = caught rangeError).
Proof.
  split.
  - intros ch r m Hch Hne Hh Hm Hts. enter get_channel_messages. rewrite Hch.
    destruct ch as [|c0 cs]; [congruence|]. rewrite Hh. cbn [bind].
    unfold messagesOf in Hm.
    rewrite (mapM_throws (channelMessage isoOfTs) rangeError); [reflexivity | |].
    + intros x e. apply channelMessage_throws.
    + exists m. split; [exact Hm|]. unfold channelMessage, toISOString. now rewrite Hts.
  - intros q r m Hq Hne Hs Hm Hts. enter search_messages. rewrite Hq.
    destruct q as [|c0 cs]; [congruence|]. unfold searchBody. rewrite Hs. cbn [bind].
    unfold matchesOf in Hm.
    rewrite (mapM_throws (searchHit isoOfTs) rangeError); [reflexivity | |].
    + intros x e. apply searchHit_throws.
    + exists m. split; [exact Hm|]. unfold searchHit, toISOString. now rewrite Hts.
Qed.

Lemma invalid_timestamp_fails_call_witness :
  let msgs := [sampleMessage "Nutri-E build failed";
               mkRaw "" (Some "Cuti-E build succeeded") None None None] in
  callTool (fun t => if String.eqb t "" then None else sampleClock t)
    (historyEnv (Ok (mkHistory (Some msgs))))
    (mkRequest "get_channel_messages" None)
  = mkEnvelope (Plain "Slack API error: Invalid time value") (Some true).
Proof.
  intros msgs.
  apply (proj1 (invalid_timestamp_fails_call
                  (fun t => if String.eqb t "" then None else sampleClock t)
                  (historyEnv (Ok (mkHistory (Some msgs)))) None)
           "C0BUILDS" (mkHistory (Some msgs))
           (mkRaw "" (Some "Cuti-E build succeeded") None None None));
    [reflexivity | discriminate | reflexivity | simpl; tauto | reflexivity].
Defined.

(** ** The catalogue and the switch *)

Lemma knownTool_catalogue nm : knownTool nm <-> In nm (map t_name listTools).
Proof. reflexivity. Qed.

(** X16. The tools that the listing announces are the tools that the
    switch handles: five names, all different, and a call is answered with
    the unknown-tool envelope exactly when its name is not listed. *)
Theorem catalogue_matches_dispatch :
  map t_name listTools
  = ["check_build_status"; "get_channel_messages"; "search_messages";
     "send_message"; "list_channels"]
  /\ NoDup (map t_name listTools)
  /\ forall isoOfTs env nm args,
       callTool isoOfTs env (mkRequest nm args)
       = mkEnvelope (Plain ("Unknown tool: " ++ nm)) (Some true)
       <-> ~ In nm (map t_name listTools).
Proof.
  split; [reflexivity|]. split.
  - simpl. repeat constructor; simpl; intros H;
      repeat (destruct H as [H|H]; [discriminate|]); exact H.
  - intros isoOfTs env nm args. rewrite <- knownTool_catalogue. split.
    + intros H Hk. unfold callTool in H.
      destruct (dispatch isoOfTs env (mkRequest nm args)) as [e|err] eqn:E.
      * apply (dispatch_known_unflagged isoOfTs env (mkRequest nm args) e Hk) in E.
        rewrite H in E. discriminate.
      * inversion H.
    + intros Hn. unfold callTool. now rewrite dispatch_unknown.
Qed.

Lemma catalogue_matches_dispatch_witness :
  callTool sampleClock (historyEnv (Throw rangeError))
    (mkRequest "check_build" None)
  = mkEnvelope (Plain "Unknown tool: check_build") (Some true).
Proof.
  apply (proj2 (proj2 catalogue_matches_dispatch)).
  simpl. intros H. repeat (destruct H as [H|H]; [discriminate|]). exact H.
Defined.

(** X17. The default that the catalogue declares for a tool's limit is the
    default that the handler uses: when the request gives no limit (or 0),
    the answer depends on the Slack client only through what it returns
    when asked for the declared number of items (5, 10, 10 and 50). *)
Theorem declared_defaults_effective isoOfTs env1 env2 args t d :
  In t listTools -> declaredLimit t = Some d ->
  argOf arg_limit args = None \/ argOf arg_limit args = Some 0%Z ->
  truthy (argOf arg_workflow args) = false ->
  buildChannelId env1 = buildChannelId env2 ->
  agreeAt d (slack env1) (slack env2) ->
  callTool isoOfTs env1 (mkRequest (t_name t) args)
  = callTool isoOfTs env2 (mkRequest (t_name t) args).
Proof.
  intros Ht Hd Hl Hw Hch (Hh & Hs & Hc).
  assert (El : forall v, limitOr (argOf arg_limit args) v = v).
  { intros v. destruct Hl as [-> | ->]; reflexivity. }
  simpl in Ht. destruct Ht as [<-|[<-|[<-|[<-|[<-|[]]]]]];
    vm_compute in Hd; inversion Hd; subst d; clear Hd; cbn [t_name].
  - enter check_build_status. rewrite <- Hch.
    destruct (buildChannelId env1) as [[|c0 cs]|]; try reflexivity.
    unfold fetchLimit. rewrite truthy_workflowFilter, Hw, El.
    change (Z.min 5 20) with 5%Z. now rewrite Hh.
  - enter get_channel_messages. rewrite <- Hch.
    destruct (orElse _ _) as [[|c0 cs]|]; try reflexivity.
    rewrite El. change (Z.min 10 100) with 10%Z. now rewrite Hh.
  - enter search_messages.
    destruct (argOf arg_query args) as [[|c0 cs]|]; try reflexivity.
    unfold searchBody. rewrite El. change (Z.min 10 100) with 10%Z. now rewrite Hs.
  - enter list_channels. rewrite El. change (Z.min 50 200) with 50%Z. now rewrite Hc.
Qed.

Lemma declared_defaults_effective_witness :
  let listed := mkChannels (Some []) in
  let client1 :=
    mkSlack (fun _ _ => Throw rangeError) (fun _ _ => Throw rangeError)
      (fun _ _ => Throw rangeError)
      (fun n => if (n =? 50)%Z then Ok listed else Throw rangeError) in
  let client2 :=
    mkSlack (fun _ _ => Throw rangeError) (fun _ _ => Throw rangeError)
      (fun _ _ => Throw rangeError) (fun _ => Ok listed) in
  callTool sampleClock (mkEnv None client1) (mkRequest "list_channels" None)
  = callTool sampleClock (mkEnv None client2) (mkRequest "list_channels" None).
Proof.
  intros listed client1 client2.
  apply (declared_defaults_effective sampleClock (mkEnv None client1) (mkEnv None client2)
           None
           (mkTool "list_channels"
              "List available Slack channels the bot has access to"
              [ mkProperty "limit" "number"
                  "Maximum number of channels to list (default: 50)" (Some 50%Z) ]
              [])
           50%Z).
  - simpl. tauto.
  - reflexivity.
  - now left.
  - reflexivity.
  - reflexivity.
  - repeat split.
Defined.

(** X18. A tool that the catalogue marks with a required argument answers
    a request without it (absent or empty) with the text "Error: <name>
    parameter is required", without the error flag; for send_message this
    holds once a channel is known, the channel being checked first. *)
Theorem required_arguments_checked isoOfTs env args t p :
  In t listTools -> In p (t_required t) ->
  truthy (stringArg p args) = false ->
  (t_name t = "send_message" ->
   truthy (orElse (argOf arg_channel_id args) (buildChannelId env)) = true) ->
  callTool isoOfTs env (mkRequest (t_name t) args)
  = plain ("Error: " ++ p ++ " parameter is required").
Proof.
  intros Ht Hp Hmiss Hch.
  simpl in Ht. destruct Ht as [<-|[<-|[<-|[<-|[<-|[]]]]]]; simpl in Hp;
    try contradiction; destruct Hp as [Hp|[]]; subst p.
  - cbn [t_name]. enter search_messages. unfold stringArg in Hmiss. simpl in Hmiss.
    destruct (argOf arg_query args) as [[|c0 cs]|];
      simpl in Hmiss; try discriminate; reflexivity.
  - specialize (Hch eq_refl). cbn [t_name]. enter send_message.
    unfold stringArg in Hmiss. simpl in Hmiss.
    destruct (orElse _ _) as [[|c0 cs]|]; simpl in Hch; try discriminate.
    destruct (argOf arg_text args) as [[|t0 t']|];
      simpl in Hmiss; try discriminate; reflexivity.
Qed.

Lemma required_arguments_checked_witness :
  callTool sampleClock (historyEnv (Throw rangeError))
    (mkRequest "send_message" (Some (mkArgs None None None None (Some ""))))
  = plain "Error: text parameter is required".
Proof.
  apply (required_arguments_checked sampleClock (historyEnv (Throw rangeError))
           (Some (mkArgs None None None None (Some "")))
           (mkTool "send_message" "Send a message to a Slack channel"
              [ mkProperty "channel_id" "string"
                  "Slack channel ID. If not provided, uses the build channel." None;
                mkProperty "text" "string" "Message text to send" None ]
              ["text"])
           "text").
  - simpl. tauto.
  - simpl. tauto.
  - reflexivity.
  - reflexivity.
Defined.

(** ** Version 1.0.0 and version 1.1.0 *)

Lemma mapM_forget isoOfTs (msgs : list RawMessage) :
  match mapM (V1.parseMessage isoOfTs) msgs with
  | Ok old => exists bs, mapM (parseMessage isoOfTs) msgs = Ok bs
                         /\ map forgetExtraction bs = old
  | Throw e => mapM (parseMessage isoOfTs) msgs = Throw e
  end.
Proof.
  induction msgs as [|m ms IH]; simpl.
  - exists []. split; reflexivity.
  - unfold V1.parseMessage at 1. unfold toISOString.
    destruct (isoOfTs (ts m)) as [iso|] eqn:E.
    + destruct (parseMessage_ok isoOfTs m iso E) as (w & _ & ->). cbn [bind].
      destruct (mapM (V1.parseMessage isoOfTs) ms) as [old|e].
      * destruct IH as (bs & -> & Hbs). cbn [bind]. eexists. split; [reflexivity|].
        simpl. now rewrite Hbs.
      * rewrite IH. reflexivity.
    + unfold parseMessage, toISOString. rewrite E. reflexivity.
Qed.

(** X19. Without a workflow filter and with a limit that is not negative,
    version 1.1.0 of check_build_status answers as version 1.0.0 did: the
    same exception, the same text envelope, or builds that, with the
    workflow and duration fields left out, are the first
    min(limit or 5, 20) builds of version 1.0.0 (which did not cut its
    list). *)
Theorem version_1_0_0_agrees isoOfTs env args :
  truthy (argOf arg_workflow args) = false ->
  (0 <= limitOr (argOf arg_limit args) 5)%Z ->
  match V1.check_build_status isoOfTs env args with
  | Throw e => check_build_status isoOfTs env args = Throw e
  | Ok (V1.mkEnvelope (V1.Plain s) flag) =>
      check_build_status isoOfTs env args = Ok (mkEnvelope (Plain s) flag)
  | Ok (V1.mkEnvelope (V1.Builds old) flag) =>
      exists bs,
        check_build_status isoOfTs env args
        = Ok (mkEnvelope (Json (BuildsPayload bs None (List.length bs))) flag)
        /\ map forgetExtraction bs
           = firstn (Z.to_nat (Z.min (limitOr (argOf arg_limit args) 5) 20)) old
  end.
Proof.
  intros Hw Hl. unfold V1.check_build_status, check_build_status.
  destruct (buildChannelId env) as [[|c0 cs]|]; try reflexivity.
  unfold fetchLimit. rewrite truthy_workflowFilter, Hw.
  destruct (slack_conversations_history _ _ _) as [r|e]; [|reflexivity]. cbn [bind].
  destruct (messages r) as [[|m0 ms]|]; try reflexivity.
  pose proof (mapM_forget isoOfTs (m0 :: ms)) as H.
  destruct (mapM (V1.parseMessage isoOfTs) (m0 :: ms)) as [old|e].
  - destruct H as (bs & -> & Hbs). cbn [bind].
    eexists. split; [reflexivity|].
    unfold filterAndLimit. rewrite truthy_workflowFilter, Hw.
    unfold resultLimit. rewrite sliceTo_nonneg by lia.
    now rewrite map_firstn, Hbs.
  - rewrite H. reflexivity.
Qed.

Lemma version_1_0_0_agrees_witness :
  let env := historyEnv (Ok (mkHistory (Some [sampleMessage "Nutri-E build failed";
                                               sampleMessage "Cuti-E build succeeded"]))) in
  let args := Some (mkArgs (Some 1%Z) None None None None) in
  exists bs,
    check_build_status sampleClock env args
    = Ok (mkEnvelope (Json (BuildsPayload bs None (List.length bs))) None)
    /\ map forgetExtraction bs
       = [V1.mkBuild "2023-11-14T22:13:20.123Z" failed "Nutri-E build failed" None].
Proof.
  intros env args.
  exact (version_1_0_0_agrees sampleClock env args eq_refl ltac:(vm_compute; discriminate)).
Defined.

(** X20. get_channel_messages without a channel_id (absent or empty) and
    without a configured build channel answers with a text, without the
    error flag, whatever the Slack client would have said. *)
Theorem get_channel_messages_no_channel isoOfTs env args :
  truthy (argOf arg_channel_id args) = false ->
  truthy (buildChannelId env) = false ->
  callTool isoOfTs env (mkRequest "get_channel_messages" args)
  = mkEnvelope
      (Plain "Error: No channel_id provided and SLACK_BUILD_CHANNEL_ID not configured.")
      None.
Proof.
  intros Ha Hb. enter get_channel_messages. unfold orElse. rewrite Ha.
  destruct (buildChannelId env) as [[|c0 cs]|]; try reflexivity; discriminate.
Qed.

Lemma get_channel_messages_no_channel_witness :
  callTool sampleClock
    (mkEnv (Some "") (constSlack (Ok (mkHistory None)) (Throw rangeError)
                        (Throw rangeError) (Throw rangeError)))
    (mkRequest "get_channel_messages" (Some (mkArgs (Some 3%Z) None None None None)))
  = mkEnvelope
      (Plain "Error: No channel_id provided and SLACK_BUILD_CHANNEL_ID not configured.")
      None.
Proof.
  apply get_channel_messages_no_channel; reflexivity.
Defined.
